(** * Mortgage console front end: the tabular view, the payment estimate,
      the page controllers, the gateway calls, the sidebar and the dashboard

    A shallow embedding of
    - [src/components/DataTable.tsx] (filter, sort, paginate, header clicks,
      cells, footer and row menus),
    - [src/components/ui.tsx] (the [Pagination] buttons),
    - [src/pages/LoanApplicationsPage.tsx] (the payment estimate of the loan
      form, its option lists, labels and badges, and the three mutations of
      the page; the same mutations of [PropertiesPage.tsx] and of
      [CustomersPage], whose text follows the components in
      [src/components/ui.tsx], with the columns and the form defaults of the
      latter),
    - [src/pages/DashboardPage.tsx] (totals, alert and recent applications),
    - [src/services/api.ts] (the requests of the three services),
    - [Layout] (the sidebar) and [src/App.tsx] (the routes).

    JavaScript numbers are IEEE 754 binary64 values: they are modelled by
    Rocq's primitive floats, whose [+ - * /] and comparisons are the same
    operations.  Counters that only ever hold integers (array lengths, page
    numbers, the page size, comparator results, epoch milliseconds) are [Z].
    What the language runtime supplies and the repository does not define
    (number/text conversion, [toLowerCase], [Math.pow], the date parser and
    the argument order in which [Array.prototype.sort] consults its
    comparator) is gathered in the class [Host]; every general theorem holds
    for every host. *)

From Stdlib Require Import ZArith List String Ascii Bool Lia Floats Uint63.
From stdpp Require Import base option gmap strings list pretty sorting.

Set Warnings "-inexact-float".
#[local] Open Scope Z_scope.

(* ===================================================================== *)
(** * Part I: definitions                                                 *)
(* ===================================================================== *)

(** ** JavaScript values and the host environment *)

(** The primitive values a record field or a watched form field can hold. *)
Inductive jsval : Type :=
| JUndefined
| JNull
| JBool (b : bool)
| JNum (x : float)
| JStr (s : string).

(** Which of the two elements under comparison an engine hands to the
    comparator as its first argument while it inserts an element into the
    already ordered part of the array. *)
Inductive CallOrder : Type :=
| LaterFirst     (* comparefn(inserted, earlier) < 0 : move in front *)
| EarlierFirst.  (* comparefn(earlier, inserted) > 0 : move in front *)

Class Host : Type := {
  StringToNumber : string → float;      (* ToNumber on a string *)
  NumberToString : float → string;      (* Number::toString, radix 10 *)
  toLowerCase : string → string;        (* String.prototype.toLowerCase *)
  Math_pow : float → float → float;     (* implementation-approximated *)
  Date_getTime : string → option Z;     (* new Date(s).getTime(); None is NaN *)
  sort_calls : CallOrder
}.

Module JS.

(** [v == null] *)
Definition nullish (v : jsval) : bool :=
  match v with
  | JUndefined | JNull => true
  | _ => false
  end.

(** ToBoolean: the falsy values are undefined, null, false, +0, -0, NaN
    and the empty string. *)
Definition truthy (v : jsval) : bool :=
  match v with
  | JUndefined | JNull => false
  | JBool b => b
  | JNum x => negb ((x =? 0)%float || is_nan x)
  | JStr s => negb (String.eqb s "")
  end.

(** [a || b] *)
Definition or (a b : jsval) : jsval := if truthy a then a else b.

(** [a ?? b] *)
Definition coalesce (a b : jsval) : jsval := if nullish a then b else a.

Section Conversions.
Context `{Host}.

Definition ToNumber (v : jsval) : float :=
  match v with
  | JUndefined => nan
  | JNull => 0%float
  | JBool b => if b then 1%float else 0%float
  | JNum x => x
  | JStr s => StringToNumber s
  end.

(** [String(v)] *)
Definition ToString (v : jsval) : string :=
  match v with
  | JUndefined => "undefined"
  | JNull => "null"
  | JBool b => if b then "true" else "false"
  | JNum x => NumberToString x
  | JStr s => s
  end.

(** [a < b] on primitives: two strings are compared by code units,
    anything else numerically, and a NaN operand makes it false. *)
Definition lt (a b : jsval) : bool :=
  match a, b with
  | JStr s, JStr t => String.ltb s t
  | _, _ => (ToNumber a <? ToNumber b)%float
  end.

(** [a > b] is the same comparison with the operands exchanged. *)
Definition gt (a b : jsval) : bool := lt b a.
End Conversions.

(** [s.includes(t)]: [t] occurs in [s] as a contiguous run. *)
Fixpoint includes (s t : string) : bool :=
  String.prefix t s ||
  match s with
  | EmptyString => false
  | String _ s' => includes s' t
  end.

(** [l.slice(start, end)] with integral arguments: a negative index counts
    from the end, both are clamped to the array. *)
Definition slice {A} (l : list A) (start end_ : Z) : list A :=
  let len := Z.of_nat (length l) in
  let k := if start <? 0 then Z.max (len + start) 0 else Z.min start len in
  let final := if end_ <? 0 then Z.max (len + end_) 0 else Z.min end_ len in
  take (Z.to_nat (final - k)) (drop (Z.to_nat k) l).

(** *** [Array.prototype.sort]

    The sort is stable.  It is modelled by insertion: each element in turn
    is moved towards the front of the part already ordered, past the
    elements the comparator places it before.  Whenever the comparator
    orders the elements consistently there is one stable result and every
    engine returns it.  Engines differ in the argument order of their calls
    ([CallOrder]); this shows when the comparator gives the same answer for
    a pair in both orders, as the table's does for two records without a
    value.  Where a comparator is inconsistent in other ways as well (values
    that are neither less than, greater than nor equal to one another), an
    engine may ask fewer or other questions than this scan and order the
    comparable elements differently. *)
Section Sort.
Context {A : Type} (calls : CallOrder) (comparefn : A → A → Z).

(** Does the inserted element [x] go in front of the earlier [y]? *)
Definition moves_before (x y : A) : bool :=
  match calls with
  | LaterFirst => comparefn x y <? 0
  | EarlierFirst => 0 <? comparefn y x
  end.

(** The ordered part is kept back to front: its head is its last
    element. *)
Fixpoint insert_back (x : A) (ordered : list A) : list A :=
  match ordered with
  | [] => [x]
  | y :: rest =>
      if moves_before x y then y :: insert_back x rest
      else x :: y :: rest
  end.

Fixpoint sort_from (ordered todo : list A) : list A :=
  match todo with
  | [] => rev ordered
  | x :: todo' => sort_from (insert_back x ordered) todo'
  end.

Definition sort (l : list A) : list A := sort_from [] l.
End Sort.

End JS.

(** ** A reference host

    A concrete host on which the examples are evaluated.  Each component is
    the standard function on the domain described with it; on the rest of its
    domain it is left unmodelled and answers NaN, [None] or the text given,
    and no example calls it there. *)
Module Reference.

(** Exact for [|z| <= 2^53], rounded to nearest up to [2^63]. *)
Definition Z_to_float (z : Z) : float :=
  if z <? 0 then (- of_uint63 (Uint63.of_Z (- z)))%float
  else of_uint63 (Uint63.of_Z z).

(** The integer a float denotes, when it denotes one. *)
Definition float_to_Z (x : float) : option Z :=
  match Prim2SF x with
  | S754_zero _ => Some 0
  | S754_finite s m e =>
      let mag :=
        if 0 <=? e then Some (Z.pos m * 2 ^ e)
        else if Z.pos m mod 2 ^ (- e) =? 0 then Some (Z.pos m / 2 ^ (- e))
        else None in
      (λ v, if s then - v else v) <$> mag
  | _ => None
  end.

Definition digit_of (c : ascii) : option Z :=
  let n := Z.of_N (N_of_ascii c) in
  if (48 <=? n) && (n <=? 57) then Some (n - 48) else None.

(** A non-empty run of decimal digits, read as a natural number. *)
Fixpoint digits_from (acc : Z) (s : string) : option Z :=
  match s with
  | EmptyString => Some acc
  | String c s' =>
      match digit_of c with
      | Some d => digits_from (10 * acc + d) s'
      | None => None
      end
  end.

Definition digits (s : string) : option Z :=
  match s with
  | EmptyString => None
  | _ => digits_from 0 s
  end.

(** The empty text is 0 and an unsigned decimal integer below [2^63] is its
    value. *)
Definition StringToNumber (s : string) : float :=
  match s with
  | EmptyString => 0%float
  | _ =>
      match digits s with
      | Some z => if z <? 2 ^ 63 then Z_to_float z else nan
      | None => nan
      end
  end.

(** Integers print in decimal. *)
Definition NumberToString (x : float) : string :=
  if is_nan x then "NaN"
  else if (x =? infinity)%float then "Infinity"
  else if (x =? neg_infinity)%float then "-Infinity"
  else match float_to_Z x with
       | Some z => pretty z
       | None => "NaN"
       end.

(** ASCII letters only. *)
Definition lower_ascii (c : ascii) : ascii :=
  let n := N_of_ascii c in
  if ((65 <=? n) && (n <=? 90))%N then ascii_of_N (n + 32) else c.

Fixpoint toLowerCase (s : string) : string :=
  match s with
  | EmptyString => EmptyString
  | String c s' => String (lower_ascii c) (toLowerCase s')
  end.

(** [x] to an integral power by repeated squaring: the bits of the
    exponent are consumed from the least significant one. *)
Fixpoint powi_pos (n : positive) (m p : float) : float :=
  match n with
  | xH => (p * m)%float
  | xO n' => powi_pos n' (m * m)%float p
  | xI n' => powi_pos n' (m * m)%float (p * m)%float
  end.

Definition powi (x : float) (y : Z) : float :=
  match y with
  | Z0 => 1%float
  | Zpos n => powi_pos n x 1%float
  | Zneg n => (1 / powi_pos n x 1%float)%float
  end.

(** Integral exponents. *)
Definition Math_pow (x y : float) : float :=
  match float_to_Z y with
  | Some n => powi x n
  | None => nan
  end.

(** Days between 1970-01-01 and the given civil date. *)
Definition days_from_civil (y m d : Z) : Z :=
  let y' := if m <=? 2 then y - 1 else y in
  let era := y' / 400 in
  let yoe := y' - era * 400 in
  let mp := if 2 <? m then m - 3 else m + 9 in
  let doy := (153 * mp + 2) / 5 + d - 1 in
  let doe := yoe * 365 + yoe / 4 - yoe / 100 + doy in
  era * 146097 + doe - 719468.

Definition days_in_month (y m : Z) : Z :=
  if m =? 2 then
    if ((y mod 4 =? 0) && negb (y mod 100 =? 0)) || (y mod 400 =? 0)
    then 29 else 28
  else if (m =? 4) || (m =? 6) || (m =? 9) || (m =? 11) then 30 else 31.

Definition in_range (lo x hi : Z) : bool := (lo <=? x) && (x <=? hi).

(** The UTC date-time format [YYYY-MM-DDTHH:mm:ssZ]. *)
Definition Date_getTime (s : string) : option Z :=
  if negb (Nat.eqb (String.length s) 20) then None else
  let field (from len : nat) := digits (String.substring from len s) in
  let sep (at_ : nat) (c : string) := String.eqb (String.substring at_ 1 s) c in
  if negb (sep 4%nat "-" && sep 7%nat "-" && sep 10%nat "T" && sep 13%nat ":"
           && sep 16%nat ":" && sep 19%nat "Z") then None else
  y ← field 0%nat 4%nat; m ← field 5%nat 2%nat; d ← field 8%nat 2%nat;
  hh ← field 11%nat 2%nat; mm ← field 14%nat 2%nat; ss ← field 17%nat 2%nat;
  if in_range 1 m 12 && in_range 1 d (days_in_month y m)
     && in_range 0 hh 23 && in_range 0 mm 59 && in_range 0 ss 59
  then Some ((((days_from_civil y m d * 24 + hh) * 60 + mm) * 60 + ss) * 1000)
  else None.

Definition host (calls : CallOrder) : Host :=
  Build_Host StringToNumber NumberToString toLowerCase Math_pow Date_getTime
    calls.

End Reference.

(** ** The loan form's payment estimate
    ([LoanForm] in [src/pages/LoanApplicationsPage.tsx]) *)
Module LoanForm.
Section WithHost.
Context `{Host}.

(** [watch(name)]: the current value of a form field.  A field never
    touched and without a default value is [undefined]; a default value is
    the number of the record being edited; a field that was changed holds
    what its input delivers, a number or its text (the schema converts with
    [z.coerce.number()] when the form is validated). *)
Definition watch (values : gmap string jsval) (name : string) : jsval :=
  match values !! name with
  | Some v => v
  | None => JUndefined
  end.

(** The four constants the component derives from the watched fields. *)
Definition loanAmount (values : gmap string jsval) : jsval :=
  JS.or (watch values "loanAmount") (JNum 0).
Definition downPayment (values : gmap string jsval) : jsval :=
  JS.or (watch values "downPayment") (JNum 0).
Definition interestRate (values : gmap string jsval) : jsval :=
  JS.or (watch values "interestRate") (JNum 6.5).
Definition termMonths (values : gmap string jsval) : jsval :=
  JS.or (watch values "termMonths") (JNum 360).

(** The locals of [calculatePayment]; arithmetic converts its operands
    with ToNumber. *)
Definition principal (loanAmount downPayment : jsval) : float :=
  (JS.ToNumber loanAmount - JS.ToNumber downPayment)%float.

Definition monthlyRate (interestRate : jsval) : float :=
  (JS.ToNumber interestRate / 100 / 12)%float.

(** The amortization quotient on the locals [principal], [monthlyRate]
    and the term. *)
Definition payment (principal monthlyRate : float) (termMonths : jsval)
  : float :=
  ((principal * monthlyRate
    * Math_pow (1 + monthlyRate) (JS.ToNumber termMonths))
   / (Math_pow (1 + monthlyRate) (JS.ToNumber termMonths) - 1))%float.

Definition calculatePayment
    (loanAmount downPayment interestRate termMonths : jsval) : float :=
  let principal := principal loanAmount downPayment in
  let monthlyRate := monthlyRate interestRate in
  if (monthlyRate =? 0)%float
  then (principal / JS.ToNumber termMonths)%float
  else
    let payment := payment principal monthlyRate termMonths in
    if is_nan payment then 0%float else payment.

(** The number handed to the currency formatter under "Est. Monthly
    Payment". *)
Definition estimate (values : gmap string jsval) : float :=
  calculatePayment (loanAmount values) (downPayment values)
    (interestRate values) (termMonths values).

(** The test of the first branch of [calculatePayment], as the form
    reaches it. *)
Definition zero_rate_branch (values : gmap string jsval) : bool :=
  (monthlyRate (interestRate values) =? 0)%float.
End WithHost.

(** The floats at most [k] steps away from [x], in either direction. *)
Fixpoint up_to (k : nat) (step : float → float) (x : float) : list float :=
  match k with
  | O => []
  | S k' => step x :: up_to k' step (step x)
  end.

Definition within_ulps (k : nat) (x : float) : list float :=
  x :: up_to k next_up x ++ up_to k next_down x.

(** The growth factor of 30 years at 6 percent: the double nearest to the
    360th power of the double [1 + 6/100/12]. *)
Definition growth_6_percent : float := 6.0225752122629865%float.

(** A positive finite double as mantissa times a power of 2. *)
Definition mantissa_exponent (x : float) : option (Z * Z) :=
  match Prim2SF x with
  | S754_finite false m e => Some (Z.pos m, e)
  | _ => None
  end.

(** [c] is a double nearest to the exact power [x ^ n]: twice the distance
    between the two is at most one unit in the last place of [c].  Both sides
    are scaled by [2 ^ k] to compare integers. *)
Definition is_nearest_power (x : float) (n : Z) (c : float) : bool :=
  match mantissa_exponent x, mantissa_exponent c with
  | Some (m, e), Some (mc, ec) =>
      let k := Z.max 0 (Z.max (- ec) (- (n * e))) in
      2 * Z.abs (mc * 2 ^ (ec + k) - m ^ n * 2 ^ (n * e + k)) <=? 2 ^ (ec + k)
  | _, _ => false
  end.

(** Sample forms. *)
Definition form_6_percent : gmap string jsval :=
  {[ "loanAmount" := JNum 300000; "downPayment" := JNum 0;
     "interestRate" := JNum 6; "termMonths" := JNum 360 ]}.

Definition form_zero_rate : gmap string jsval :=
  {[ "loanAmount" := JNum 300000; "downPayment" := JNum 60000;
     "interestRate" := JNum 0; "termMonths" := JNum 360 ]}.

(** A rate so small that [1 + monthlyRate] is 1. *)
Definition form_tiny_rate : gmap string jsval :=
  {[ "loanAmount" := JNum 300000; "downPayment" := JNum 0;
     "interestRate" := JNum 1e-15; "termMonths" := JNum 360 ]}.

(** A rate so small that dividing it by 100 gives 0. *)
Definition form_underflow_rate : gmap string jsval :=
  {[ "loanAmount" := JNum 300000; "downPayment" := JNum 60000;
     "interestRate" := JNum 1e-322; "termMonths" := JNum 360 ]}.

(** The rate field as the text "0" of a number input. *)
Definition form_text_zero_rate : gmap string jsval :=
  {[ "loanAmount" := JStr "300000"; "downPayment" := JStr "60000";
     "interestRate" := JStr "0"; "termMonths" := JStr "360" ]}.

End LoanForm.

(** ** The tabular view ([src/components/DataTable.tsx]) *)
Module DataTable.

(** A record of the table: a JavaScript object read by key. *)
Abbreviation item := (gmap string jsval).

Inductive direction : Type := asc | desc.

(** [Column<T>] of [src/types/index.ts]; a renderer yields the cell's
    content, kept here as text. *)
Record Column : Type := {
  key : string;
  header : string;
  render : option (item → string);
  sortable : bool
}.

Record SortConfig : Type := { sort_key : string; sort_direction : direction }.

(** The four [useState] cells of the component. *)
Record State : Type := {
  searchQuery : string;
  sortConfig : option SortConfig;
  currentPage : Z;
  openDropdown : option string
}.

Definition initial : State :=
  {| searchQuery := ""; sortConfig := None; currentPage := 1;
     openDropdown := None |}.

(** The props, with the defaults of the parameter list filled in by
    [pageSize_of] and its companions. *)
Record Props : Type := {
  data : list item;
  columns : list Column;
  keyExtractor : item → string;
  hasActions : bool;
  isLoading : option bool;
  emptyTitle : option string;
  emptyDescription : option string;
  pageSize : option Z
}.

Definition isLoading_of (p : Props) : bool := default false (isLoading p).
Definition emptyTitle_of (p : Props) : string :=
  default "No data found" (emptyTitle p).
Definition emptyDescription_of (p : Props) : string :=
  default "There are no items to display." (emptyDescription p).
Definition pageSize_of (p : Props) : Z := default 10 (pageSize p).

(** [item[key]] *)
Definition get (i : item) (k : string) : jsval :=
  match i !! k with
  | Some v => v
  | None => JUndefined
  end.

(** [Math.ceil(length / pageSize)]: an integer, or not a finite number when
    the page size is 0. *)
Inductive PageCount : Type :=
| Pages (n : Z)
| PagesInfinity
| PagesNaN.

Definition more_than_one (t : PageCount) : bool :=
  match t with
  | Pages n => 1 <? n
  | PagesInfinity => true
  | PagesNaN => false
  end.

Definition page_is (p : Z) (t : PageCount) : bool :=
  match t with
  | Pages n => p =? n
  | _ => false
  end.

Definition totalPages (len pageSize : Z) : PageCount :=
  if pageSize =? 0 then (if len =? 0 then PagesNaN else PagesInfinity)
  else Pages (- ((- len) / pageSize)).

(** [handleSort]: the next sort specification after a click on the header
    of the column [key]. *)
Definition handleSort (key : string) (current : option SortConfig)
  : option SortConfig :=
  match current with
  | Some c =>
      if String.eqb (sort_key c) key then
        match sort_direction c with
        | asc => Some {| sort_key := key; sort_direction := desc |}
        | desc => None
        end
      else Some {| sort_key := key; sort_direction := asc |}
  | None => Some {| sort_key := key; sort_direction := asc |}
  end.

(** The previous and next buttons of [Pagination] ([src/components/ui.tsx]):
    the page they ask for, or nothing when disabled. *)
Definition Pagination_prev (currentPage : Z) : option Z :=
  if currentPage =? 1 then None else Some (currentPage - 1).

Definition Pagination_next (currentPage : Z) (total : PageCount) : option Z :=
  if page_is currentPage total then None else Some (currentPage + 1).

(** What the table shows below the header. *)
Inductive Body : Type :=
| EmptyState (title description : string)
| Rows (rows : list (string * list string)).

Record Footer : Type := {
  showing_from : Z;
  showing_to : Z;
  showing_of : Z;
  shown_page : Z;
  shown_pages : PageCount
}.

Inductive View : Type :=
| Spinner
| Table (body : Body) (footer : option Footer).

Section WithHost.
Context `{Host}.

(** The test of one column inside the filter. *)
Definition column_matches (searchQuery : string) (i : item) (column : Column)
  : bool :=
  let value := get i (key column) in
  if JS.nullish value then false
  else JS.includes (toLowerCase (JS.ToString value))
                   (toLowerCase searchQuery).

Definition filteredData (data : list item) (columns : list Column)
    (searchQuery : string) : list item :=
  if String.eqb searchQuery "" then data
  else List.filter
         (λ i, existsb (column_matches searchQuery i) columns) data.

(** The comparator handed to [sort]. *)
Definition compare (c : SortConfig) (a b : item) : Z :=
  let aValue := get a (sort_key c) in
  let bValue := get b (sort_key c) in
  if JS.nullish aValue then 1
  else if JS.nullish bValue then -1
  else if JS.lt aValue bValue then
    match sort_direction c with asc => -1 | desc => 1 end
  else if JS.gt aValue bValue then
    match sort_direction c with asc => 1 | desc => -1 end
  else 0.

Definition sortedData (filtered : list item) (sortConfig : option SortConfig)
  : list item :=
  match sortConfig with
  | None => filtered
  | Some c => JS.sort sort_calls (compare c) filtered
  end.

Definition paginatedData (sorted : list item) (currentPage pageSize : Z)
  : list item :=
  JS.slice sorted ((currentPage - 1) * pageSize) (currentPage * pageSize).

(** The three derivations in sequence, from the props and the state. *)
Definition sorted_of (p : Props) (st : State) : list item :=
  sortedData (filteredData (data p) (columns p) (searchQuery st))
             (sortConfig st).

Definition page_of (p : Props) (st : State) : list item :=
  paginatedData (sorted_of p st) (currentPage st) (pageSize_of p).

Definition cell (column : Column) (i : item) : string :=
  match render column with
  | Some r => r i
  | None => JS.ToString (JS.coalesce (get i (key column)) (JStr "-"))
  end.

Definition body_of (p : Props) (page : list item) : Body :=
  match page with
  | [] => EmptyState (emptyTitle_of p) (emptyDescription_of p)
  | _ =>
      Rows (map (λ i, (keyExtractor p i, map (λ c, cell c i) (columns p)))
                page)
  end.

Definition footer_of (p : Props) (st : State) : option Footer :=
  let len := Z.of_nat (length (sorted_of p st)) in
  let total := totalPages len (pageSize_of p) in
  if more_than_one total then
    Some {| showing_from := (currentPage st - 1) * pageSize_of p + 1;
            showing_to := Z.min (currentPage st * pageSize_of p) len;
            showing_of := len;
            shown_page := currentPage st;
            shown_pages := total |}
  else None.

Definition render_view (p : Props) (st : State) : View :=
  if isLoading_of p then Spinner
  else Table (body_of p (page_of p st)) (footer_of p st).

(** One rendering of the component: the state is read and handed back as
    it is, no setter is called while rendering. *)
Definition DataTable (p : Props) (st : State) : State * View :=
  (st, render_view p st).

(** The handlers the view installs. *)
Inductive Event : Type :=
| Search (text : string)            (* SearchInput onChange *)
| HeaderClick (column : Column)     (* th onClick *)
| PreviousPage                      (* Pagination, left button *)
| NextPage                          (* Pagination, right button *)
| RowMenu (rowKey : string)         (* the overflow button of a row *)
| CloseMenu.                        (* backdrop, Edit or Delete entry *)

Definition set_page (st : State) (page : option Z) : State :=
  match page with
  | Some n =>
      {| searchQuery := searchQuery st; sortConfig := sortConfig st;
         currentPage := n; openDropdown := openDropdown st |}
  | None => st
  end.

Definition handle (p : Props) (st : State) (e : Event) : State :=
  match e with
  | Search text =>
      {| searchQuery := text; sortConfig := sortConfig st;
         currentPage := currentPage st; openDropdown := openDropdown st |}
  | HeaderClick column =>
      if sortable column then
        {| searchQuery := searchQuery st;
           sortConfig := handleSort (key column) (sortConfig st);
           currentPage := currentPage st;
           openDropdown := openDropdown st |}
      else st
  | PreviousPage =>
      match footer_of p st with
      | Some f => set_page st (Pagination_prev (shown_page f))
      | None => st
      end
  | NextPage =>
      match footer_of p st with
      | Some f =>
          set_page st (Pagination_next (shown_page f) (shown_pages f))
      | None => st
      end
  | RowMenu rowKey =>
      {| searchQuery := searchQuery st; sortConfig := sortConfig st;
         currentPage := currentPage st;
         openDropdown :=
           if bool_decide (openDropdown st = Some rowKey) then None
           else Some rowKey |}
  | CloseMenu =>
      {| searchQuery := searchQuery st; sortConfig := sortConfig st;
         currentPage := currentPage st; openDropdown := None |}
  end.

(** The state after a run of events from the initial state; the props may
    differ from one event to the next. *)
Definition after (steps : list (Props * Event)) : State :=
  fold_left (λ st step, handle (fst step) st (snd step)) steps initial.
End WithHost.

(** The filter in the words of the specification: some column holds a
    value, and the lower-cased text of that value contains the lower-cased
    search text as a contiguous run. *)
Definition contains_ignoring_case `{Host} (s t : string) : Prop :=
  ∃ before after : string,
    toLowerCase s = before +:+ toLowerCase t +:+ after.

Definition some_column_contains `{Host}
    (columns : list Column) (text : string) (i : item) : Prop :=
  ∃ column value,
    column ∈ columns ∧ i !! key column = Some value ∧
    JS.nullish value = false ∧
    contains_ignoring_case (JS.ToString value) text.

(** A record holds nothing under the key [k]: the field is absent, undefined
    or null. *)
Definition missing (k : string) (i : item) : bool := JS.nullish (get i k).

(** Sample data: a table with a text column that two records lack and a
    number column that is null once. *)
Definition plain (k h : string) (sortable_ : bool) : Column :=
  {| key := k; header := h; render := None; sortable := sortable_ |}.

Definition rendered (k h : string) (r : item → string) : Column :=
  {| key := k; header := h; render := Some r; sortable := true |}.

Definition r1 : item :=
  {[ "id" := JStr "r1"; "name" := JStr "Delta"; "amount" := JNum 300;
     "city" := JStr "Austin" ]}.
Definition r2 : item :=
  {[ "id" := JStr "r2"; "amount" := JNum 100; "city" := JStr "Boston" ]}.
Definition r3 : item :=
  {[ "id" := JStr "r3"; "name" := JStr "alpha"; "amount" := JNull;
     "city" := JStr "Austin" ]}.
Definition r4 : item :=
  {[ "id" := JStr "r4"; "amount" := JNum 200; "city" := JStr "Boston" ]}.
Definition r5 : item :=
  {[ "id" := JStr "r5"; "name" := JStr "Bravo"; "amount" := JNum 200;
     "city" := JStr "Austin" ]}.

Definition sample_rows : list item := [r1; r2; r3; r4; r5].

(** The records of a list, named by their [id] field. *)
Definition ids (l : list item) : list jsval := (λ i, get i "id") <$> l.

Definition sample_columns : list Column :=
  [ plain "name" "Name" true;
    rendered "amount" "Amount" (λ _, "$$$") ].

Definition by_name (d : direction) : SortConfig :=
  {| sort_key := "name"; sort_direction := d |}.

Definition by_amount (d : direction) : SortConfig :=
  {| sort_key := "amount"; sort_direction := d |}.

Definition by_city (d : direction) : SortConfig :=
  {| sort_key := "city"; sort_direction := d |}.

(** The records of one city. *)
Definition in_city (city : string) (i : item) : bool :=
  match get i "city" with
  | JStr s => String.eqb s city
  | _ => false
  end.

(** [n] records numbered from 1. *)
Definition numbered (n : nat) : list item :=
  (λ k : nat, {[ "id" := JStr (pretty k) ]}) <$> seq 1 n.

Definition sample_props (rows : list item) : Props :=
  {| data := rows; columns := [plain "id" "Id" true];
     keyExtractor := λ i, JS.ToString (H := Reference.host LaterFirst)
                            (get i "id");
     hasActions := true; isLoading := None; emptyTitle := None;
     emptyDescription := None; pageSize := None |}.

(** The same props with a page size given. *)
Definition sized_props (rows : list item) (size : Z) : Props :=
  {| data := rows; columns := [plain "id" "Id" true];
     keyExtractor := λ i, JS.ToString (H := Reference.host LaterFirst)
                            (get i "id");
     hasActions := true; isLoading := None; emptyTitle := None;
     emptyDescription := None; pageSize := Some size |}.

(** The state after the table was left on its third page. *)
Definition on_page (n : Z) : State :=
  {| searchQuery := ""; sortConfig := None; currentPage := n;
     openDropdown := None |}.

End DataTable.

(** ** The page controllers and their mutations
    ([CustomersPage], [PropertiesPage], [LoanApplicationsPage]) *)
Module Pages.

Abbreviation entity := (gmap string jsval).

Inductive Page : Type := CustomersPage | PropertiesPage | LoanApplicationsPage.

Inductive Mutation : Type := createMutation | updateMutation | deleteMutation.

(** How the gateway call behind a mutation ends. *)
Inductive Outcome : Type := Fulfilled | Rejected.

Inductive Toast : Type :=
| toast_success (message : string)
| toast_error (message : string).

(** The three [useState] cells of a page. *)
Record Modals : Type := {
  isCreateOpen : bool;
  editing : option entity;
  deleting : option entity
}.

(** One entry of the query cache: the list last fetched, and whether it has
    been invalidated and is due for a refetch. *)
Record Query : Type := {
  fetched : list entity;
  invalidated : bool
}.

Record World : Type := {
  modals : Modals;
  cache : gmap string Query;
  toasts : list Toast
}.

Definition queryKey (p : Page) : string :=
  match p with
  | CustomersPage => "customers"
  | PropertiesPage => "properties"
  | LoanApplicationsPage => "loanApplications"
  end.

Definition success_message (p : Page) (m : Mutation) : string :=
  match p, m with
  | CustomersPage, createMutation => "Customer created"
  | CustomersPage, updateMutation => "Customer updated"
  | CustomersPage, deleteMutation => "Customer deleted"
  | PropertiesPage, createMutation => "Property created"
  | PropertiesPage, updateMutation => "Property updated"
  | PropertiesPage, deleteMutation => "Property deleted"
  | LoanApplicationsPage, createMutation => "Application created"
  | LoanApplicationsPage, updateMutation => "Application updated"
  | LoanApplicationsPage, deleteMutation => "Application deleted"
  end.

Definition failure_message (p : Page) (m : Mutation) : string :=
  match p, m with
  | CustomersPage, createMutation => "Failed to create customer"
  | CustomersPage, updateMutation => "Failed to update customer"
  | CustomersPage, deleteMutation => "Failed to delete customer"
  | PropertiesPage, createMutation => "Failed to create property"
  | PropertiesPage, updateMutation => "Failed to update property"
  | PropertiesPage, deleteMutation => "Failed to delete property"
  | LoanApplicationsPage, createMutation => "Failed to create application"
  | LoanApplicationsPage, updateMutation => "Failed to update application"
  | LoanApplicationsPage, deleteMutation => "Failed to delete application"
  end.

(** Handlers are run one after the other on the world. *)
Definition Effect : Type := World → World.

Definition and_then (f g : Effect) : Effect := λ w, g (f w).

Notation "f >>> g" := (and_then f g) (at level 61, left associativity).

(** [queryClient.invalidateQueries({ queryKey })]: the cached list stays as
    it is until the refetch answers. *)
Definition invalidateQueries (k : string) : Effect := λ w,
  {| modals := modals w;
     cache := alter (λ q, {| fetched := fetched q; invalidated := true |})
                    k (cache w);
     toasts := toasts w |}.

Definition set_modals (f : Modals → Modals) : Effect := λ w,
  {| modals := f (modals w); cache := cache w; toasts := toasts w |}.

Definition setIsCreateOpen (b : bool) : Effect :=
  set_modals (λ m, {| isCreateOpen := b; editing := editing m;
                      deleting := deleting m |}).

Definition setEditing (e : option entity) : Effect :=
  set_modals (λ m, {| isCreateOpen := isCreateOpen m; editing := e;
                      deleting := deleting m |}).

Definition setDeleting (e : option entity) : Effect :=
  set_modals (λ m, {| isCreateOpen := isCreateOpen m; editing := editing m;
                      deleting := e |}).

Definition toast (t : Toast) : Effect := λ w,
  {| modals := modals w; cache := cache w; toasts := toasts w ++ [t] |}.

(** The setter each mutation calls when it succeeds. *)
Definition close (m : Mutation) : Effect :=
  match m with
  | createMutation => setIsCreateOpen false
  | updateMutation => setEditing None
  | deleteMutation => setDeleting None
  end.

Definition onSuccess (p : Page) (m : Mutation) : Effect :=
  invalidateQueries (queryKey p) >>> close m
  >>> toast (toast_success (success_message p m)).

Definition onError (p : Page) (m : Mutation) : Effect :=
  toast (toast_error (failure_message p m)).

(** [useMutation]: when the call settles, exactly one of the two handlers
    runs. *)
Definition settle (p : Page) (m : Mutation) (o : Outcome) : Effect :=
  match o with
  | Fulfilled => onSuccess p m
  | Rejected => onError p m
  end.

(** Is the modal or dialog of a mutation showing? *)
Definition is_open (m : Mutation) (w : World) : bool :=
  match m with
  | createMutation => isCreateOpen (modals w)
  | updateMutation => bool_decide (is_Some (editing (modals w)))
  | deleteMutation => bool_decide (is_Some (deleting (modals w)))
  end.

(** [const { data = [] } = useQuery(...)]: the list handed to the table. *)
Definition displayed (p : Page) (w : World) : list entity :=
  match cache w !! queryKey p with
  | Some q => fetched q
  | None => []
  end.

Definition due_for_refetch (p : Page) (w : World) : bool :=
  match cache w !! queryKey p with
  | Some q => invalidated q
  | None => false
  end.

(** A sample world: one property listed, its delete dialog open. *)
Definition sample_property : entity :=
  {[ "id" := JStr "p-1"; "address" := JStr "1 Main St" ]}.

Definition sample_world : World :=
  {| modals := {| isCreateOpen := false; editing := None;
                  deleting := Some sample_property |};
     cache := {[ "properties" :=
                   {| fetched := [sample_property]; invalidated := false |} ]};
     toasts := [] |}.

End Pages.

(** ** The dashboard ([src/pages/DashboardPage.tsx]) *)
Module Dashboard.

Inductive LoanType : Type := Conventional | FHA | VA | USDA | Jumbo.

Inductive LoanStatus : Type :=
| Draft | Submitted | UnderReview | Approved | Denied | Closed | Funded.

#[global] Instance LoanStatus_eq_dec : EqDecision LoanStatus.
Proof. solve_decision. Defined.

(** [LoanApplication] and [Customer] of [src/types/index.ts]. *)
Record LoanApplication : Type := {
  id : string;
  customerId : string;
  propertyId : string;
  loanType : LoanType;
  loanAmount : float;
  downPayment : float;
  interestRate : option float;
  termMonths : float;
  status : LoanStatus;
  applicationDate : string;
  notes : option string;
  createdAt : string;
  updatedAt : option string
}.

Record Customer : Type := {
  customer_id : string;
  firstName : string;
  lastName : string;
  email : string;
  phone : string;
  dateOfBirth : string;
  socialSecurityNumber : option string;
  customer_createdAt : string;
  customer_updatedAt : option string
}.

Section WithHost.
Context `{Host}.

(** [applications.reduce((sum, a) => sum + a.loanAmount, 0)] *)
Definition totalLoanValue (applications : list LoanApplication) : float :=
  fold_left (λ sum a, (sum + loanAmount a)%float) applications 0%float.

Definition is_pending (s : LoanStatus) : bool :=
  existsb (λ p, bool_decide (p = s)) [Submitted; UnderReview].

Definition pendingReview (applications : list LoanApplication) : nat :=
  length (List.filter (λ a, is_pending (status a)) applications).

(** [new Date(a.createdAt).getTime()] *)
Definition created (a : LoanApplication) : option Z :=
  Date_getTime (createdAt a).

(** The comparator of [recentApps]: the difference of the two times; it is
    NaN when either date is invalid, which [sort] reads as 0. *)
Definition newest_first (a b : LoanApplication) : Z :=
  match created b, created a with
  | Some tb, Some ta => tb - ta
  | _, _ => 0
  end.

Definition recentApps (applications : list LoanApplication)
  : list LoanApplication :=
  JS.slice (JS.sort sort_calls newest_first applications) 0 5.

Definition getCustomerName (customers : list Customer) (customerId : string)
  : string :=
  match List.find (λ c, String.eqb (customer_id c) customerId) customers with
  | Some c => firstName c +:+ " " +:+ lastName c
  | None => "Unknown"
  end.
End WithHost.

(** The running total of a list of numbers, added from the left. *)
Fixpoint added_up (total : float) (amounts : list float) : float :=
  match amounts with
  | [] => total
  | x :: rest => added_up (total + x)%float rest
  end.

(** The time of an application whose date is valid. *)
Definition time_of `{Host} (a : LoanApplication) : Z := default 0 (created a).

(** Sample applications. *)
Definition application (n : string) (amount : float) (s : LoanStatus)
    (at_ : string) : LoanApplication :=
  {| id := n; customerId := "c-1"; propertyId := "p-1";
     loanType := Conventional; loanAmount := amount; downPayment := 0;
     interestRate := None; termMonths := 360; status := s;
     applicationDate := at_; notes := None; createdAt := at_;
     updatedAt := None |}.

Definition sample_applications : list LoanApplication :=
  [ application "a1" 100000 Draft "2024-01-01T00:00:00Z";
    application "a2" 250000 Submitted "2024-03-01T00:00:00Z";
    application "a3" 300000 UnderReview "2024-02-01T00:00:00Z";
    application "a4" 150000 Approved "2024-06-01T00:00:00Z";
    application "a5" 400000 Submitted "2024-05-01T00:00:00Z";
    application "a6" 120000 Denied "2024-04-01T00:00:00Z";
    application "a7" 500000 Funded "2023-12-01T00:00:00Z" ].

(** Applications whose creation date is not their application date: by
    creation date d3 is the newest and d1 the oldest, by application date
    it is the other way round. *)
Definition dated (n : string) (applied created_ : string) : LoanApplication :=
  {| id := n; customerId := "c-1"; propertyId := "p-1";
     loanType := Conventional; loanAmount := 100000; downPayment := 0;
     interestRate := None; termMonths := 360; status := Draft;
     applicationDate := applied; notes := None; createdAt := created_;
     updatedAt := None |}.

Definition dated_applications : list LoanApplication :=
  [ dated "d1" "2024-09-01T00:00:00Z" "2024-01-01T00:00:00Z";
    dated "d2" "2024-08-01T00:00:00Z" "2024-02-01T00:00:00Z";
    dated "d3" "2024-03-01T00:00:00Z" "2024-07-01T00:00:00Z";
    dated "d4" "2024-07-01T00:00:00Z" "2024-03-01T00:00:00Z";
    dated "d5" "2024-04-01T00:00:00Z" "2024-06-01T00:00:00Z";
    dated "d6" "2024-06-01T00:00:00Z" "2024-04-01T00:00:00Z";
    dated "d7" "2024-05-01T00:00:00Z" "2024-05-01T00:00:00Z" ].

(** Five applications of the first half of 2024, one whose creation date is
    no date, and after it the newest of all. *)
Definition newest_application : LoanApplication :=
  application "n" 900000 Submitted "2024-12-01T00:00:00Z".

Definition undated_applications : list LoanApplication :=
  [ application "o1" 100000 Draft "2024-05-01T00:00:00Z";
    application "o2" 100000 Draft "2024-04-01T00:00:00Z";
    application "o3" 100000 Draft "2024-03-01T00:00:00Z";
    application "o4" 100000 Draft "2024-02-01T00:00:00Z";
    application "o5" 100000 Draft "2024-01-01T00:00:00Z";
    application "x" 100000 Draft "pending";
    newest_application ].

End Dashboard.

(** ** Columns of one kind, and the order the table's comparator aims at *)
Module Ordering.
Import DataTable.

(** A record holds a text under [k], or nothing. *)
Definition text_or_nothing (k : string) (i : item) : bool :=
  match get i k with
  | JStr _ | JUndefined | JNull => true
  | _ => false
  end.

(** A record holds a number other than NaN under [k], or nothing. *)
Definition number_or_nothing (k : string) (i : item) : bool :=
  match get i k with
  | JNum x => negb (is_nan x)
  | JUndefined | JNull => true
  | _ => false
  end.

(** The column [k] of a list is of one kind. *)
Definition one_kind (k : string) (l : list item) : Prop :=
  Forall (λ i, text_or_nothing k i = true) l
  ∨ Forall (λ i, number_or_nothing k i = true) l.

(** [a] may stand before [b] in a list sorted by [c]: [b] holds nothing, or
    both hold a value and that of [b] is not on the near side of that of
    [a]. *)
Definition in_order `{Host} (c : SortConfig) (a b : item) : bool :=
  let aValue := get a (sort_key c) in
  let bValue := get b (sort_key c) in
  JS.nullish bValue
  || negb (JS.nullish aValue)
     && negb (match sort_direction c with
              | asc => JS.lt bValue aValue
              | desc => JS.lt aValue bValue
              end).

(** The search text is empty and the current page, at least 1, starts
    within the data (or is the first). *)
Definition within_pages (p : Props) (st : State) : Prop :=
  searchQuery st = ""
  ∧ 1 ≤ currentPage st
  ∧ (currentPage st - 1) * pageSize_of p
    < Z.max 1 (Z.of_nat (length (data p))).

(** An event that leaves the search text as it is. *)
Definition keeps_search (e : Event) : bool :=
  match e with
  | Search _ => false
  | _ => true
  end.

(** The state after a run of events under the same props. *)
Definition after_events `{Host} (p : Props) (events : list Event) : State :=
  after ((λ e, (p, e)) <$> events).

End Ordering.

(** ** Kinds of numbers *)
Module Numbers.

(** The specification value of a number is NaN. *)
Definition SF_is_nan (x : spec_float) : bool :=
  match x with S754_nan => true | _ => false end.

(** A zero of either sign, or NaN. *)
Definition zero_or_nan (x : float) : bool :=
  match Prim2SF x with
  | S754_zero _ | S754_nan => true
  | _ => false
  end.

End Numbers.

(** ** Text functions of the language used by the pages

    A text is a sequence of code units below 256. *)
Module Text.

(** [/[A-Z]/] *)
Definition is_capital (c : ascii) : bool :=
  let n := N_of_ascii c in ((65 <=? n) && (n <=? 90))%N.

(** [/\s/] on a code unit below 256: tab, line feed, vertical tab, form
    feed, carriage return, space and the no-break space. *)
Definition is_space (c : ascii) : bool :=
  let n := N_of_ascii c in
  (((9 <=? n) && (n <=? 13)) || (n =? 32) || (n =? 160))%N.

(** [s.replace(/([A-Z])/g, ' $1')]: a space in front of every capital. *)
Fixpoint space_capitals (s : string) : string :=
  match s with
  | EmptyString => EmptyString
  | String c s' =>
      if is_capital c then String " " (String c (space_capitals s'))
      else String c (space_capitals s')
  end.

Fixpoint trimStart (s : string) : string :=
  match s with
  | EmptyString => EmptyString
  | String c s' => if is_space c then trimStart s' else s
  end.

Fixpoint trimEnd (s : string) : string :=
  match s with
  | EmptyString => EmptyString
  | String c s' =>
      match trimEnd s' with
      | EmptyString => if is_space c then EmptyString else String c EmptyString
      | kept => String c kept
      end
  end.

(** [s.trim()] *)
Definition trim (s : string) : string := trimEnd (trimStart s).

(** [s.split(sep)[0]] for a separator of one code unit: the text in front
    of its first occurrence, the whole text when it does not occur. *)
Fixpoint split_head (sep : ascii) (s : string) : string :=
  match s with
  | EmptyString => EmptyString
  | String c s' =>
      if Ascii.eqb c sep then EmptyString else String c (split_head sep s')
  end.

(** [s.startsWith(t)] *)
Definition startsWith (s t : string) : bool := String.prefix t s.

(** Does the text hold a space? *)
Fixpoint has_space (s : string) : bool :=
  match s with
  | EmptyString => false
  | String c s' => Ascii.eqb c " " || has_space s'
  end.

(** The code units of a text. *)
Fixpoint units (s : string) : list ascii :=
  match s with
  | EmptyString => []
  | String c s' => c :: units s'
  end.

(** The code units of a text that are not white space. *)
Definition solid (s : string) : list ascii :=
  List.filter (λ c, negb (is_space c)) (units s).

End Text.

(** ** The menu of a row ([src/components/DataTable.tsx], the last cell of
    a row) *)
Module RowMenu.
Import DataTable.

(** [openDropdown === key] *)
Definition menu_open (p : Props) (st : State) (i : item) : bool :=
  bool_decide (openDropdown st = Some (keyExtractor p i)).

(** The rows of the page on which the menu is showing. *)
Definition open_menus `{Host} (p : Props) (st : State) : list item :=
  if hasActions p then List.filter (menu_open p st) (page_of p st) else [].

End RowMenu.

(** ** Labels and badges of the status and type columns
    ([src/pages/LoanApplicationsPage.tsx], [src/pages/PropertiesPage.tsx],
    [src/pages/DashboardPage.tsx]) *)
Module Labels.
Import Dashboard.

(** [PropertyType] and [PropertyStatus] of [src/types/index.ts]. *)
Inductive PropertyType : Type :=
| SingleFamily | Condo | Townhouse | MultiFamily | Land.

Inductive PropertyStatus : Type :=
| Available | UnderContract | Sold | OffMarket.

(** The text each value of the three unions is. *)
Definition LoanStatus_text (s : LoanStatus) : string :=
  match s with
  | Draft => "Draft"
  | Submitted => "Submitted"
  | UnderReview => "UnderReview"
  | Approved => "Approved"
  | Denied => "Denied"
  | Closed => "Closed"
  | Funded => "Funded"
  end.

Definition PropertyType_text (t : PropertyType) : string :=
  match t with
  | SingleFamily => "SingleFamily"
  | Condo => "Condo"
  | Townhouse => "Townhouse"
  | MultiFamily => "MultiFamily"
  | Land => "Land"
  end.

Definition PropertyStatus_text (s : PropertyStatus) : string :=
  match s with
  | Available => "Available"
  | UnderContract => "UnderContract"
  | Sold => "Sold"
  | OffMarket => "OffMarket"
  end.

(** The cell of a status or type column:
    [value.replace(/([A-Z])/g, ' $1').trim()]. *)
Definition cell_label (value : string) : string :=
  Text.trim (Text.space_capitals value).

(** The options of the form's selects, as pairs of value and label. *)
Definition loan_statusOptions : list (string * string) :=
  [ ("Draft", "Draft"); ("Submitted", "Submitted");
    ("UnderReview", "Under Review"); ("Approved", "Approved");
    ("Denied", "Denied"); ("Closed", "Closed"); ("Funded", "Funded") ].

Definition propertyTypeOptions : list (string * string) :=
  [ ("SingleFamily", "Single Family"); ("Condo", "Condo");
    ("Townhouse", "Townhouse"); ("MultiFamily", "Multi Family");
    ("Land", "Land") ].

Definition property_statusOptions : list (string * string) :=
  [ ("Available", "Available"); ("UnderContract", "Under Contract");
    ("Sold", "Sold"); ("OffMarket", "Off Market") ].

(** The variants of [Badge]. *)
Inductive Variant : Type :=
| variant_default | success | warning | danger | info.

(** [getStatusVariant] of the loan applications page. *)
Definition loan_getStatusVariant (s : LoanStatus) : Variant :=
  match s with
  | Draft => variant_default
  | Submitted => info
  | UnderReview => warning
  | Approved => success
  | Denied => danger
  | Closed => success
  | Funded => success
  end.

(** [getStatusVariant] of the properties page. *)
Definition property_getStatusVariant (s : PropertyStatus) : Variant :=
  match s with
  | Available => success
  | UnderContract => warning
  | Sold => info
  | OffMarket => danger
  end.

(** The badge of a recent application on the dashboard. *)
Definition dashboard_variant (s : LoanStatus) : Variant :=
  if bool_decide (s = Approved) then success
  else if bool_decide (s = Denied) then danger
  else warning.

End Labels.

(** ** Names and addresses looked up by id
    ([LoanForm] and [LoanApplicationsPage]) *)
Module Lookup.
Import Dashboard.

(** [Property] of [src/types/index.ts]. *)
Record Property : Type := {
  property_id : string;
  address : string;
  city : string;
  state : string;
  zipCode : string;
  propertyType : Labels.PropertyType;
  bedrooms : float;
  bathrooms : float;
  squareFeet : float;
  yearBuilt : float;
  estimatedValue : float;
  listingPrice : option float;
  property_status : Labels.PropertyStatus;
  description : option string;
  property_createdAt : string;
  property_updatedAt : option string
}.

Definition customer_label (c : Customer) : string :=
  firstName c +:+ " " +:+ lastName c.

Definition property_label (p : Property) : string :=
  address p +:+ ", " +:+ city p.

(** The options of the two selects of the loan form: a placeholder, then
    one option for each record. *)
Definition customerOptions (customers : list Customer)
  : list (string * string) :=
  ("", "Select customer...")
  :: map (λ c, (customer_id c, customer_label c)) customers.

Definition propertyOptions (properties : list Property)
  : list (string * string) :=
  ("", "Select property...")
  :: map (λ p, (property_id p, property_label p)) properties.

Definition getPropertyAddress (properties : list Property) (id : string)
  : string :=
  match List.find (λ x, String.eqb (property_id x) id) properties with
  | Some p => address p
  | None => "Unknown"
  end.

End Lookup.

(** ** The customers page ([CustomersPage] and [CustomerForm], whose text
    follows the components in [src/components/ui.tsx]) *)
Module Customers.
Import DataTable Dashboard.

(** A customer as the object the table reads by key; an optional field
    that is not given is absent. *)
Definition with_optional (k : string) (v : option string) (i : item) : item :=
  match v with
  | Some s => <[k := JStr s]> i
  | None => i
  end.

Definition to_item (c : Customer) : item :=
  with_optional "socialSecurityNumber" (socialSecurityNumber c)
    (with_optional "updatedAt" (customer_updatedAt c)
       {[ "id" := JStr (customer_id c);
          "firstName" := JStr (firstName c);
          "lastName" := JStr (lastName c);
          "email" := JStr (email c);
          "phone" := JStr (phone c);
          "dateOfBirth" := JStr (dateOfBirth c);
          "createdAt" := JStr (customer_createdAt c) ]}).

(** The columns of the page; what the three renderers draw is left
    open. *)
Definition columns (name_cell dateOfBirth_cell createdAt_cell : item → string)
  : list Column :=
  [ {| key := "name"; header := "Name"; render := Some name_cell;
       sortable := true |};
    {| key := "phone"; header := "Phone"; render := None; sortable := true |};
    {| key := "dateOfBirth"; header := "Date of Birth";
       render := Some dateOfBirth_cell; sortable := true |};
    {| key := "createdAt"; header := "Created";
       render := Some createdAt_cell; sortable := true |} ].

(** Is the search text found in one of the three fields the columns
    name? *)
Definition found `{Host} (text : string) (c : Customer) : bool :=
  let has (field : string) :=
    JS.includes (toLowerCase field) (toLowerCase text) in
  has (phone c) || has (dateOfBirth c) || has (customer_createdAt c).

(** [defaultValues] of the form: those of the customer being edited, none
    for a new customer. *)
Definition defaultValues (customer : option Customer)
  : option (gmap string jsval) :=
  match customer with
  | Some c =>
      Some {[ "firstName" := JStr (firstName c);
              "lastName" := JStr (lastName c);
              "email" := JStr (email c);
              "phone" := JStr (phone c);
              "dateOfBirth" := JStr (Text.split_head "T" (dateOfBirth c));
              "socialSecurityNumber" :=
                JS.or (match socialSecurityNumber c with
                       | Some s => JStr s
                       | None => JUndefined
                       end) (JStr "") ]}
  | None => None
  end.

(** Sample customers. *)
Definition customer (n first last phone_ born at_ : string) : Customer :=
  {| customer_id := n; firstName := first; lastName := last;
     email := first +:+ "@example.org"; phone := phone_;
     dateOfBirth := born; socialSecurityNumber := None;
     customer_createdAt := at_; customer_updatedAt := None |}.

Definition sample_customers : list Customer :=
  [ customer "c-1" "Ada" "Lovelace" "5550100100" "1815-12-10T00:00:00Z"
      "2024-01-05T00:00:00Z";
    customer "c-2" "Grace" "Hopper" "5550100200" "1906-12-09"
      "2024-02-01T00:00:00Z" ].

End Customers.

(** ** The sidebar and the routes ([Layout], [src/App.tsx]) *)
Module Layout.

(** The entries of the sidebar, as pairs of name and target. *)
Definition navigation : list (string * string) :=
  [ ("Dashboard", "/"); ("Customers", "/customers");
    ("Properties", "/properties"); ("Loan Applications", "/loans") ].

(** Is the entry with target [href] highlighted at [pathname]? *)
Definition isActive (pathname href : string) : bool :=
  String.eqb pathname href
  || (negb (String.eqb href "/") && Text.startsWith pathname href).

Definition active (pathname : string) : list (string * string) :=
  List.filter (λ entry, isActive pathname (snd entry)) navigation.

(** The paths of the routes of [App]: the index route of the parent ["/"]
    and its three children. *)
Definition parent_path : string := "/".
Definition child_paths : list string := ["customers"; "properties"; "loans"].
Definition routes : list string :=
  parent_path :: map (λ child, parent_path +:+ child) child_paths.

(** The targets of the links of the dashboard: the four cards, the review
    button and "View all". *)
Definition dashboard_links : list string :=
  ["/customers"; "/properties"; "/loans"; "/loans"; "/loans"; "/loans"].

End Layout.

(** ** The gateway calls ([src/services/api.ts]) *)
Module Api.
Import Pages.

Inductive Service : Type :=
| customerService | propertyService | loanApplicationService.

Inductive Method : Type := GET | POST | PUT | DELETE.

Record Request : Type := {
  method : Method;
  url : string;
  body : option entity
}.

(** [import.meta.env]: the variables that are set. *)
Abbreviation Env := (gmap string string).

Definition variable (s : Service) : string :=
  match s with
  | customerService => "VITE_CUSTOMER_SERVICE_URL"
  | propertyService => "VITE_PROPERTY_SERVICE_URL"
  | loanApplicationService => "VITE_APPLICATION_SERVICE_URL"
  end.

Definition path (s : Service) : string :=
  match s with
  | customerService => "/api/customers"
  | propertyService => "/api/properties"
  | loanApplicationService => "/api/applications"
  end.

(** [import.meta.env.X]: undefined when the variable is not set. *)
Definition env_value (env : Env) (name : string) : jsval :=
  match env !! name with
  | Some s => JStr s
  | None => JUndefined
  end.

Section WithHost.
Context `{Host}.

(** [import.meta.env.X + "/api/..."]: the text of the left operand, then
    the path. *)
Definition API_BASE (env : Env) (s : Service) : string :=
  JS.ToString (env_value env (variable s)) +:+ path s.

(** [`${API_BASE.X}/${id}`] *)
Definition item_url (env : Env) (s : Service) (id : jsval) : string :=
  API_BASE env s +:+ "/" +:+ JS.ToString id.

Definition getAll (env : Env) (s : Service) : Request :=
  {| method := GET; url := API_BASE env s; body := None |}.

Definition getById (env : Env) (s : Service) (id : jsval) : Request :=
  {| method := GET; url := item_url env s id; body := None |}.

Definition create (env : Env) (s : Service) (data : entity) : Request :=
  {| method := POST; url := API_BASE env s; body := Some data |}.

Definition update (env : Env) (s : Service) (id : jsval) (data : entity)
  : Request :=
  {| method := PUT; url := item_url env s id; body := Some data |}.

Definition delete (env : Env) (s : Service) (id : jsval) : Request :=
  {| method := DELETE; url := item_url env s id; body := None |}.
End WithHost.

End Api.

(** ** From a row of the table to the gateway: the handlers the pages hand
    to the table, to the forms and to the confirmation dialog *)
Module Controller.
Import Pages.

Definition service (p : Page) : Api.Service :=
  match p with
  | CustomersPage => Api.customerService
  | PropertiesPage => Api.propertyService
  | LoanApplicationsPage => Api.loanApplicationService
  end.

(** The two entries of a row's menu. *)
Inductive Entry : Type := Edit | Delete.

(** [onEdit={setEditing...}] and [onDelete={setDeleting...}] *)
Definition row_action (e : Entry) (r : entity) : Effect :=
  match e with
  | Edit => setEditing (Some r)
  | Delete => setDeleting (Some r)
  end.

Section WithHost.
Context `{Host}.

(** A click on an entry of the menu of the row [r]: the handler of the
    page runs, then the table closes the menu. *)
Definition click_entry (props : DataTable.Props) (e : Entry) (r : entity)
    (screen : DataTable.State * World) : DataTable.State * World :=
  (DataTable.handle props (fst screen) DataTable.CloseMenu,
   row_action e r (snd screen)).

(** [onConfirm] of the dialog:
    [deleting && deleteMutation.mutate(deleting.id)]. *)
Definition onConfirm (env : Api.Env) (p : Page) (w : World)
  : option Api.Request :=
  match deleting (modals w) with
  | Some r => Some (Api.delete env (service p) (DataTable.get r "id"))
  | None => None
  end.

(** The object [{ id, ...data }] the update mutation sends: the fields of
    [data], and [id] unless [data] has a field of that name. *)
Definition update_body (id : jsval) (data : entity) : entity :=
  data ∪ {[ "id" := id ]}.

(** [onSubmit] of the form in the edit modal, which is drawn while a record
    is being edited. *)
Definition onSubmit_edit (env : Api.Env) (p : Page) (data : entity)
    (w : World) : option Api.Request :=
  match editing (modals w) with
  | Some r =>
      let id := DataTable.get r "id" in
      Some (Api.update env (service p) id (update_body id data))
  | None => None
  end.

(** [onSubmit] of the form in the create modal, which is drawn while the
    modal is open. *)
Definition onSubmit_create (env : Api.Env) (p : Page) (data : entity)
    (w : World) : option Api.Request :=
  if isCreateOpen (modals w) then Some (Api.create env (service p) data)
  else None.
End WithHost.

(** A sample world: the edit form of a property is open. *)
Definition editing_world : World :=
  {| modals := {| isCreateOpen := false; editing := Some sample_property;
                  deleting := None |};
     cache := {[ "properties" :=
                   {| fetched := [sample_property]; invalidated := false |};
                 "customers" := {| fetched := []; invalidated := false |} ]};
     toasts := [] |}.

End Controller.

(** ** The alert of the dashboard *)
Module DashboardAlert.
Import Dashboard.

(** [pendingReview > 0 && ...] *)
Definition alert_shown (applications : list LoanApplication) : bool :=
  (0 <? pendingReview applications)%nat.

End DashboardAlert.

(* ===================================================================== *)
(** * Part II: theorems                                                   *)
(* ===================================================================== *)

(** ** Facts about the JavaScript operations *)
Module JSFacts.

(** *** Text *)

Lemma append_cons (c : ascii) (s t : string) :
  String c s +:+ t = String c (s +:+ t).
Proof. reflexivity. Qed.

Lemma prefix_spec (t s : string) :
  String.prefix t s = true ↔ ∃ rest, s = t +:+ rest.
Proof.
  revert s. induction t as [| c t IH]; intros s.
  - destruct s; (split; [intros _; eexists; reflexivity | reflexivity]).
  - destruct s as [| d s]; cbn [String.prefix].
    + split; [discriminate | intros [rest Hrest]; discriminate].
    + destruct (ascii_dec c d) as [-> | Hne].
      * rewrite IH. setoid_rewrite append_cons.
        split; intros [rest Hrest]; exists rest; congruence.
      * split; [discriminate |].
        intros [rest Hrest]. rewrite append_cons in Hrest. congruence.
Qed.

Lemma includes_spec (s t : string) :
  JS.includes s t = true ↔ ∃ before after, s = before +:+ t +:+ after.
Proof.
  induction s as [| c s IH]; cbn [JS.includes];
    rewrite orb_true_iff, prefix_spec.
  - split.
    + intros [[rest Hrest] | ?]; [| discriminate].
      exists EmptyString, rest. exact Hrest.
    + intros ([| ? ?] & after & Heq); [| discriminate].
      left. exists after. exact Heq.
  - rewrite IH. split.
    + intros [[rest Hrest] | (before & after & Heq)].
      * exists EmptyString, rest. exact Hrest.
      * exists (String c before), after. rewrite append_cons. now rewrite Heq.
    + intros ([| d before] & after & Heq).
      * left. exists after. exact Heq.
      * right. exists before, after. rewrite append_cons in Heq. congruence.
Qed.

(** *** [slice] *)

Lemma not_negative (n : Z) : 0 ≤ n → (n <? 0) = false.
Proof. apply Z.ltb_ge. Qed.

Lemma slice_window {A} (l : list A) (from to : Z) :
  0 ≤ from ≤ to →
  JS.slice l from to = take (Z.to_nat (to - from)) (drop (Z.to_nat from) l).
Proof.
  intros Hft. unfold JS.slice.
  rewrite !not_negative by lia.
  set (len := Z.of_nat (length l)).
  destruct (Z.le_ge_cases from len) as [Hfrom | Hfrom].
  - rewrite (Z.min_l from) by lia.
    destruct (Z.le_ge_cases to len) as [Hto | Hto].
    + now rewrite Z.min_l by lia.
    + rewrite Z.min_r by lia.
      rewrite !take_ge; try reflexivity; rewrite length_drop; unfold len in *; lia.
  - rewrite (Z.min_r from), (Z.min_r to) by lia.
    rewrite !drop_ge by (unfold len in *; lia). now rewrite !take_nil.
Qed.

Lemma slice_from_start {A} (l : list A) (n : Z) :
  0 ≤ n → JS.slice l 0 n = take (Z.to_nat n) l.
Proof.
  intros Hn. rewrite slice_window by lia. now rewrite Z.sub_0_r.
Qed.

Lemma slice_past_the_end {A} (l : list A) (from to : Z) :
  Z.of_nat (length l) ≤ from → JS.slice l from to = [].
Proof.
  intros Hfrom. unfold JS.slice.
  rewrite (not_negative from) by lia.
  rewrite (Z.min_r from) by lia. rewrite Nat2Z.id, drop_all. apply take_nil.
Qed.

(** *** [sort] *)
Section Sort.
Context {A : Type} (calls : CallOrder) (comparefn : A → A → Z).

#[local] Abbreviation moves_before := (JS.moves_before calls comparefn).
#[local] Abbreviation insert_back := (JS.insert_back calls comparefn).
#[local] Abbreviation sort_from := (JS.sort_from calls comparefn).

(** Where an inserted element lands: behind it (towards the head of the
    back-to-front list) only elements it moves before, and next after it an
    element it does not move before. *)
Lemma insert_back_split (x : A) (ordered : list A) :
  ∃ passed kept,
    ordered = passed ++ kept
    ∧ insert_back x ordered = passed ++ x :: kept
    ∧ Forall (λ y, moves_before x y = true) passed
    ∧ (∀ y, head kept = Some y → moves_before x y = false).
Proof.
  induction ordered as [| y rest IH]; cbn.
  - exists [], []. repeat split; [constructor | discriminate].
  - destruct (moves_before x y) eqn:E.
    + destruct IH as (passed & kept & -> & -> & Hpassed & Hkept).
      exists (y :: passed), kept. repeat split; auto.
    + exists [], (y :: rest). repeat split; [constructor |].
      intros ? [= <-]. exact E.
Qed.

Lemma insert_back_perm (x : A) (ordered : list A) :
  insert_back x ordered ≡ₚ x :: ordered.
Proof.
  destruct (insert_back_split x ordered) as (passed & kept & -> & -> & _).
  symmetry. apply Permutation_middle.
Qed.

Lemma sort_from_perm (ordered todo : list A) :
  sort_from ordered todo ≡ₚ ordered ++ todo.
Proof.
  revert ordered. induction todo as [| x todo IH]; intros ordered; cbn.
  - rewrite app_nil_r. symmetry. apply Permutation_rev.
  - rewrite IH, insert_back_perm. apply Permutation_middle.
Qed.

Lemma sort_perm (l : list A) : JS.sort calls comparefn l ≡ₚ l.
Proof. apply sort_from_perm. Qed.

(** An invariant of the ordered part that every insertion keeps holds of the
    result, read front to back. *)
Lemma sort_from_invariant (P : list A → Prop) :
  (∀ x ordered, P ordered → P (insert_back x ordered)) →
  ∀ ordered todo, P ordered →
    ∃ final, P final ∧ sort_from ordered todo = rev final.
Proof.
  intros Hstep ordered todo. revert ordered.
  induction todo as [| x todo IH]; intros ordered HP; cbn; eauto.
Qed.

Lemma StronglySorted_rev (R : A → A → Prop) (l : list A) :
  StronglySorted R l → StronglySorted (flip R) (rev l).
Proof.
  induction 1 as [| x l Hl IH Hx]; cbn; [constructor |].
  apply StronglySorted_app. repeat split.
  - intros a b Ha [-> | []]%list_elem_of_In. unfold flip.
    rewrite Forall_forall in Hx. apply Hx.
    apply list_elem_of_In in Ha. apply list_elem_of_In. now apply in_rev.
  - exact IH.
  - repeat constructor.
Qed.

Lemma StronglySorted_lookup (R : A → A → Prop) (l : list A) (m n : nat) a b :
  StronglySorted R l → l !! m = Some a → l !! n = Some b → (m < n)%nat →
  R a b.
Proof.
  intros Hl. revert m n. induction Hl as [| x l Hl IH Hx]; intros m n Hm Hn Hlt.
  - discriminate.
  - destruct n as [| n]; [lia |]. destruct m as [| m]; cbn in Hm, Hn.
    + injection Hm as <-. rewrite Forall_forall in Hx. apply Hx.
      now apply list_elem_of_lookup_2 in Hn.
    + apply (IH m n); (assumption || lia).
Qed.

(** **** Stability

    The elements of a set no member of which moves before another keep
    their order. *)
Lemma sort_from_keeps_order_within (P : A → bool) :
  (∀ x y, P x = true → P y = true → moves_before x y = false) →
  ∀ todo ordered,
    List.filter P (sort_from ordered todo)
    = List.filter P (rev ordered) ++ List.filter P todo.
Proof.
  intros Hstay. induction todo as [| x todo IH]; intros ordered; cbn.
  - now rewrite app_nil_r.
  - rewrite IH.
    destruct (insert_back_split x ordered)
      as (passed & kept & -> & -> & Hpassed & _).
    rewrite !rev_app_distr. cbn [rev]. rewrite !List.filter_app. cbn [List.filter].
    destruct (P x) eqn:Ex; [| now rewrite !app_nil_r, <- !app_assoc].
    assert (Hnone : List.filter P (rev passed) = []).
    { apply List.Forall_rev in Hpassed.
      induction Hpassed as [| y l Hy _ IHl]; [reflexivity |]. cbn.
      destruct (P y) eqn:Ey; [| exact IHl].
      rewrite (Hstay x y Ex Ey) in Hy. discriminate. }
    rewrite Hnone, !app_nil_r, <- !app_assoc. reflexivity.
Qed.

Lemma sort_keeps_order_within (P : A → bool) (l : list A) :
  (∀ x y, P x = true → P y = true → moves_before x y = false) →
  List.filter P (JS.sort calls comparefn l) = List.filter P l.
Proof.
  intros Hstay. unfold JS.sort.
  now rewrite (sort_from_keeps_order_within P Hstay).
Qed.

(** **** Elements without a value go last *)
Section MissingLast.
Context (null : A → bool).
Hypothesis null_stays :
  ∀ x y, null x = true → null y = false → moves_before x y = false.
Hypothesis value_passes :
  ∀ x y, null x = false → null y = true → moves_before x y = true.

(** Back to front, nothing without a value follows something with one. *)
Lemma insert_back_missing_first (x : A) (ordered : list A) :
  StronglySorted (λ a b, null a = false → null b = false) ordered →
  StronglySorted (λ a b, null a = false → null b = false)
    (insert_back x ordered).
Proof.
  induction 1 as [| y rest Hrest IH Hy]; cbn.
  - repeat constructor.
  - destruct (moves_before x y) eqn:Emove.
    + constructor; [exact IH |].
      rewrite insert_back_perm. constructor; [| exact Hy].
      intros Hynull. destruct (null x) eqn:Ex; [| reflexivity].
      rewrite (null_stays x y Ex Hynull) in Emove. discriminate.
    + assert (Hxy : null x = false → null y = false).
      { intros Ex. destruct (null y) eqn:Ey; [| reflexivity].
        rewrite (value_passes x y Ex Ey) in Emove. discriminate. }
      constructor; [now constructor |].
      constructor; [exact Hxy |].
      eapply Forall_impl; [exact Hy |]. cbn. auto.
Qed.

Lemma sort_missing_last (l : list A) :
  StronglySorted (λ a b, null a = true → null b = true)
    (JS.sort calls comparefn l).
Proof.
  destruct (sort_from_invariant
              (StronglySorted (λ a b, null a = false → null b = false))
              insert_back_missing_first [] l) as (final & Hfinal & Heq);
    [constructor |].
  unfold JS.sort. rewrite Heq.
  eapply StronglySorted_rev in Hfinal.
  clear Heq. induction Hfinal as [| a rest Hrest IH Ha]; constructor; auto.
  eapply Forall_impl; [exact Ha |]. unfold flip. cbn. intros b Hab Hanull.
  destruct (null b); [reflexivity |]. rewrite (Hab eq_refl) in Hanull.
  discriminate.
Qed.

(** Where, besides, an element without a value moves before every other such
    element, these elements come out in reverse. *)
Lemma insert_back_missing_appended (x : A) (ordered : list A) :
  (∀ y, null x = true → null y = true → moves_before x y = true) →
  StronglySorted (λ a b, null a = false → null b = false) ordered →
  List.filter null (insert_back x ordered)
  = List.filter null ordered ++ List.filter null [x].
Proof.
  intros Hpass Hsorted.
  destruct (insert_back_split x ordered)
    as (passed & kept & -> & -> & _ & Hkept).
  rewrite !List.filter_app. cbn [List.filter].
  destruct (null x) eqn:Ex; [| now rewrite app_nil_r].
  assert (Hnone : List.filter null kept = []).
  { apply StronglySorted_app in Hsorted as (_ & _ & Hsorted).
    destruct kept as [| y kept]; [reflexivity |].
    specialize (Hkept y eq_refl).
    assert (Hy : null y = false).
    { destruct (null y) eqn:Ey; [| reflexivity].
      rewrite (Hpass y eq_refl Ey) in Hkept. discriminate. }
    apply StronglySorted_inv in Hsorted as [_ Hafter].
    cbn. rewrite Hy. clear Hkept.
    induction Hafter as [| z kept Hz _ IHkept]; [reflexivity |].
    cbn. now rewrite (Hz Hy). }
  now rewrite Hnone, app_nil_r.
Qed.

Lemma sort_missing_reversed (l : list A) :
  (∀ x y, null x = true → null y = true → moves_before x y = true) →
  List.filter null (JS.sort calls comparefn l) = rev (List.filter null l).
Proof.
  intros Hpass. unfold JS.sort.
  assert (Hgen : ∀ todo ordered,
    StronglySorted (λ a b, null a = false → null b = false) ordered →
    List.filter null (sort_from ordered todo)
    = rev (List.filter null ordered ++ List.filter null todo)).
  { induction todo as [| x todo IH]; intros ordered Hsorted; cbn [JS.sort_from].
    - rewrite app_nil_r. clear Hsorted.
      induction ordered as [| y ordered IHo]; [reflexivity |].
      cbn [rev List.filter]. rewrite List.filter_app, IHo. cbn [List.filter].
      destruct (null y); cbn [rev]; now rewrite ?app_nil_r.
    - rewrite IH by now apply insert_back_missing_first.
      rewrite insert_back_missing_appended by (auto using Hpass).
      cbn [List.filter]. destruct (null x); now rewrite <- ?app_assoc, ?app_nil_r. }
  now rewrite Hgen by constructor.
Qed.
End MissingLast.

(** **** A comparator that orders by a key *)
Section ByKey.
Context (key : A → Z) (ok : A → Prop).
Hypothesis moves_before_key :
  ∀ x y, ok x → ok y → moves_before x y = (key y <? key x).

Lemma insert_back_ascending (x : A) (ordered : list A) :
  ok x → Forall ok ordered →
  StronglySorted (λ a b, key a ≤ key b) ordered →
  StronglySorted (λ a b, key a ≤ key b) (insert_back x ordered).
Proof.
  intros Hx Hok. induction 1 as [| y rest Hrest IH Hy]; cbn.
  - repeat constructor.
  - apply Forall_cons in Hok as [Hoky Hok].
    rewrite (moves_before_key x y Hx Hoky).
    destruct (Z.ltb_spec (key y) (key x)) as [Hlt | Hge].
    + constructor; [now apply IH |].
      rewrite insert_back_perm. constructor; [lia | exact Hy].
    + constructor; [now constructor |].
      constructor; [exact Hge |].
      eapply Forall_impl; [exact Hy |]. cbn. lia.
Qed.

Lemma sort_descending (l : list A) :
  Forall ok l →
  StronglySorted (λ a b, key b ≤ key a) (JS.sort calls comparefn l).
Proof.
  intros Hl. unfold JS.sort.
  assert (Hgen : ∀ todo ordered,
    Forall ok todo → Forall ok ordered →
    StronglySorted (λ a b, key a ≤ key b) ordered →
    StronglySorted (λ a b, key b ≤ key a) (sort_from ordered todo)).
  { induction todo as [| x todo IH]; intros ordered Htodo Hord Hsorted; cbn.
    - now apply StronglySorted_rev in Hsorted.
    - apply Forall_cons in Htodo as [Hx Htodo]. apply IH; [exact Htodo | |].
      + rewrite insert_back_perm. now constructor.
      + now apply insert_back_ascending. }
  apply Hgen; (assumption || constructor).
Qed.
End ByKey.
End Sort.
End JSFacts.

(** ** The payment estimate *)
Module LoanFormFacts.
Import LoanForm.

Lemma or_falsy (v d : jsval) : JS.truthy v = false → JS.or v d = d.
Proof. unfold JS.or. now intros ->. Qed.

(** With the default rate the monthly rate is not 0. *)
Lemma default_rate_is_not_zero `{Host} :
  (monthlyRate (JNum 6.5) =? 0)%float = false.
Proof. reflexivity. Qed.

Lemma zero_rate_branch_iff `{Host} (values : gmap string jsval) :
  zero_rate_branch values = true ↔
  JS.truthy (watch values "interestRate") = true
  ∧ (monthlyRate (watch values "interestRate") =? 0)%float = true.
Proof.
  unfold zero_rate_branch, interestRate, JS.or.
  destruct (JS.truthy (watch values "interestRate")) eqn:E.
  - tauto.
  - rewrite default_rate_is_not_zero.
    split; [discriminate | intros [? _]; discriminate].
Qed.

(** [growth_6_percent] is the correctly rounded power, and repeated
    squaring stays within 128 units in the last place of it. *)
Lemma growth_is_correctly_rounded :
  is_nearest_power (1 + 6 / 100 / 12)%float 360 growth_6_percent = true.
Proof. vm_compute. reflexivity. Qed.

Lemma repeated_squaring_is_close :
  Reference.Math_pow (1 + 6 / 100 / 12)%float 360%float
  ∈ within_ulps 128 growth_6_percent.
Proof.
  apply list_elem_of_In. vm_compute.
  repeat (first [left; reflexivity | right]).
Qed.

(** The quotient for 300000 at 6 percent, for each of the 257 values that
    [Math.pow(1.005, 360)] may take within 128 units in the last place. *)
Lemma payment_6_percent_checked :
  forallb (λ w, let q := ((300000 * (6 / 100 / 12) * w) / (w - 1))%float in
                negb (is_nan q) && (abs (q - 1798.65) <=? 0.01)%float)
    (within_ulps 128 growth_6_percent) = true.
Proof. vm_compute. reflexivity. Qed.

Lemma payment_6_percent (w : float) :
  w ∈ within_ulps 128 growth_6_percent →
  let q := ((300000 * (6 / 100 / 12) * w) / (w - 1))%float in
  is_nan q = false ∧ (abs (q - 1798.65) <=? 0.01)%float = true.
Proof.
  intros Hw%list_elem_of_In.
  pose proof (proj1 (forallb_forall _ _) payment_6_percent_checked w Hw)
    as Hchecked.
  cbv beta zeta in Hchecked. apply andb_true_iff in Hchecked as [Hnan Hnear].
  apply negb_true_iff in Hnan. auto.
Qed.

(** C1 (amended): with [P] the loan amount less the down payment, [r] the
    annual rate over 100 over 12 and [n] the term, [calculatePayment] returns
    [P / n] when [r] is 0; otherwise it returns the quotient
    [P * r * pow(1+r, n) / (pow(1+r, n) - 1)] as it is, infinite or not,
    unless the quotient is NaN, which it returns as 0.  For a principal of
    300000 at 6 percent over 360 months the result is within 0.01 of 1798.65,
    on every host whose [Math.pow] is within 128 units in the last place of
    the correctly rounded power. *)
Theorem calculatePayment_amortization `{Host} (la dp ir tm : jsval) :
  let P := principal la dp in
  let r := monthlyRate ir in
  let n := JS.ToNumber tm in
  let quotient :=
    (P * r * Math_pow (1 + r) n / (Math_pow (1 + r) n - 1))%float in
  ((r =? 0)%float = true → calculatePayment la dp ir tm = (P / n)%float)
  ∧ ((r =? 0)%float = false → is_nan quotient = false →
     calculatePayment la dp ir tm = quotient)
  ∧ ((r =? 0)%float = false → is_nan quotient = true →
     calculatePayment la dp ir tm = 0%float)
  ∧ (P = 300000%float → JS.ToNumber ir = 6%float → n = 360%float →
     Math_pow (1 + r) n ∈ within_ulps 128 growth_6_percent →
     (abs (calculatePayment la dp ir tm - 1798.65) <=? 0.01)%float = true).
Proof.
  intros P r n quotient. unfold calculatePayment. fold P r n.
  change (payment P r tm) with quotient.
  repeat split.
  - now intros ->.
  - now intros -> ->.
  - now intros -> ->.
  - intros HP Hir Hn Hpow.
    assert (Hr : r = (6 / 100 / 12)%float)
      by (unfold r, monthlyRate; now rewrite Hir).
    destruct (payment_6_percent _ Hpow) as [Hnan Hnear].
    assert (Hquot : quotient =
      (300000 * (6 / 100 / 12) * Math_pow (1 + r) n
       / (Math_pow (1 + r) n - 1))%float).
    { unfold quotient. rewrite HP. now rewrite Hr at 1. }
    rewrite Hr at 1.
    replace ((6 / 100 / 12 =? 0)%float) with false by reflexivity.
    rewrite Hquot, Hnan. exact Hnear.
Qed.

(** C1, witness: the form with 300000 at 6 percent over 360 months, on the
    reference host. *)
Lemma calculatePayment_amortization_witness :
  (abs (@estimate (Reference.host LaterFirst) form_6_percent - 1798.65)
   <=? 0.01)%float = true.
Proof.
  destruct (@calculatePayment_amortization (Reference.host LaterFirst)
              (loanAmount form_6_percent) (downPayment form_6_percent)
              (@interestRate form_6_percent) (termMonths form_6_percent))
    as (_ & _ & _ & numeric).
  apply numeric; [reflexivity | reflexivity | reflexivity |].
  exact repeated_squaring_is_close.
Defined.

(** C1, counterexample: at a rate of 0.000000000000001 percent [1 + r] rounds
    to 1, the quotient divides a positive number by 0, and the infinite
    result is returned as it is. *)
Lemma tiny_rate_estimate_is_infinite :
  let h := Reference.host LaterFirst in
  (@monthlyRate h (JNum 1e-15) =? 0)%float = false
  ∧ is_finite (@payment h (@principal h (JNum 300000) (JNum 0))
                 (@monthlyRate h (JNum 1e-15)) (JNum 360)) = false
  ∧ @calculatePayment h (JNum 300000) (JNum 0) (JNum 1e-15) (JNum 360)
    = infinity
  ∧ @estimate h form_tiny_rate = infinity.
Proof. vm_compute. repeat split. Qed.

(** The same on every host for which 1 to the power 360 is 1. *)
Lemma tiny_rate_is_infinite_on_every_host `{Host} :
  Math_pow 1 360 = 1%float → estimate form_tiny_rate = infinity.
Proof.
  intros Hone. unfold estimate, calculatePayment, payment.
  change (JS.ToNumber (termMonths form_tiny_rate)) with 360%float.
  change (monthlyRate (interestRate form_tiny_rate))
    with (1e-15 / 100 / 12)%float.
  change (1 + 1e-15 / 100 / 12)%float with 1%float.
  rewrite Hone. reflexivity.
Qed.

(** C10 (amended): each watched field that is falsy is replaced by its
    default (0, 0, 360 and 6.5); a watched rate that is the number 0 is
    therefore computed with 6.5 and does not take the first branch of
    [calculatePayment]; that branch is taken exactly when the watched rate is
    truthy and its monthly rate evaluates to 0. *)
Theorem estimate_defaults `{Host} (values : gmap string jsval) :
  (JS.truthy (watch values "loanAmount") = false → loanAmount values = JNum 0)
  ∧ (JS.truthy (watch values "downPayment") = false →
     downPayment values = JNum 0)
  ∧ (JS.truthy (watch values "termMonths") = false →
     termMonths values = JNum 360)
  ∧ (JS.truthy (watch values "interestRate") = false →
     interestRate values = JNum 6.5)
  ∧ (∀ x, watch values "interestRate" = JNum x → (x =? 0)%float = true →
     estimate values
     = calculatePayment (loanAmount values) (downPayment values) (JNum 6.5)
         (termMonths values)
     ∧ zero_rate_branch values = false)
  ∧ (zero_rate_branch values = true ↔
     JS.truthy (watch values "interestRate") = true
     ∧ (monthlyRate (watch values "interestRate") =? 0)%float = true).
Proof.
  repeat apply conj; try apply or_falsy.
  - intros x Hx Hzero.
    assert (Hrate : interestRate values = JNum 6.5).
    { apply or_falsy. rewrite Hx. cbn. now rewrite Hzero. }
    unfold estimate, zero_rate_branch. rewrite Hrate.
    split; [reflexivity | apply default_rate_is_not_zero].
  - apply zero_rate_branch_iff.
  - apply zero_rate_branch_iff.
Qed.

(** C10, witness: the sample form whose rate field holds the number 0. *)
Lemma estimate_defaults_witness :
  let h := Reference.host LaterFirst in
  @estimate h form_zero_rate
  = @calculatePayment h (JNum 300000) (JNum 60000) (JNum 6.5) (JNum 360)
  ∧ @zero_rate_branch h form_zero_rate = false.
Proof.
  destruct (@estimate_defaults (Reference.host LaterFirst) form_zero_rate)
    as (_ & _ & _ & _ & zero & _).
  exact (zero 0%float eq_refl eq_refl).
Defined.

(** C10, counterexample: a rate of 1e-322 is not 0, so it is kept, and
    dividing it by 100 gives 0: the first branch is taken and the estimate is
    the principal over the term. *)
Lemma underflow_rate_takes_zero_branch :
  let h := Reference.host LaterFirst in
  JS.truthy (watch form_underflow_rate "interestRate") = true
  ∧ @interestRate form_underflow_rate = JNum 1e-322
  ∧ @zero_rate_branch h form_underflow_rate = true
  ∧ @estimate h form_underflow_rate = (240000 / 360)%float.
Proof. vm_compute. repeat split. Qed.

(** The text "0", as a number input delivers it, is truthy: it is kept and
    takes the first branch on every host that reads it as 0. *)
Theorem text_zero_rate_takes_zero_branch `{Host} (values : gmap string jsval) :
  StringToNumber "0" = 0%float →
  watch values "interestRate" = JStr "0" →
  zero_rate_branch values = true
  ∧ estimate values
    = (principal (loanAmount values) (downPayment values)
       / JS.ToNumber (termMonths values))%float.
Proof.
  intros Hzero Hwatch.
  assert (Hrate : interestRate values = JStr "0")
    by (unfold interestRate; now rewrite Hwatch).
  assert (Hbranch : zero_rate_branch values = true).
  { unfold zero_rate_branch, monthlyRate. rewrite Hrate. cbn. now rewrite Hzero. }
  split; [exact Hbranch |].
  unfold zero_rate_branch in Hbranch. unfold estimate, calculatePayment.
  now rewrite Hbranch.
Qed.

Lemma text_zero_rate_witness :
  let h := Reference.host LaterFirst in
  @zero_rate_branch h form_text_zero_rate = true
  ∧ @estimate h form_text_zero_rate = (240000 / 360)%float.
Proof.
  exact (@text_zero_rate_takes_zero_branch (Reference.host LaterFirst)
           form_text_zero_rate eq_refl eq_refl).
Defined.

End LoanFormFacts.

(** ** The tabular view *)
Module DataTableFacts.
Import DataTable.

Section WithHost.
Context `{Host}.

(** *** Filter *)

Lemma column_matches_spec (text : string) (i : item) (column : Column) :
  column_matches text i column = true ↔
  ∃ value, i !! key column = Some value ∧ JS.nullish value = false
           ∧ contains_ignoring_case (JS.ToString value) text.
Proof.
  unfold column_matches, get, contains_ignoring_case. cbv zeta.
  destruct (i !! key column) as [value |].
  - destruct (JS.nullish value) eqn:Enull; cbv iota.
    + split; [discriminate | intros (? & [= <-] & ? & _); congruence].
    + rewrite JSFacts.includes_spec. split.
      * intros Hin. exists value. auto.
      * intros (? & [= <-] & _ & Hin). exact Hin.
  - cbn [JS.nullish]. split; [discriminate | intros (? & ? & _); discriminate].
Qed.

Lemma row_matches_spec (text : string) (columns : list Column) (i : item) :
  existsb (column_matches text i) columns = true ↔
  some_column_contains columns text i.
Proof.
  rewrite existsb_exists. unfold some_column_contains.
  setoid_rewrite column_matches_spec. setoid_rewrite <- list_elem_of_In.
  split.
  - intros (column & Hin & value & Hget & Hnull & Hhas).
    exists column, value. auto.
  - intros (column & value & Hin & Hget & Hnull & Hhas).
    exists column. eauto.
Qed.

(** The filter reads a column through its key only. *)
Lemma row_matches_by_key (text : string) (columns : list Column) (i : item) :
  existsb (column_matches text i) columns
  = existsb (λ k, column_matches text i (plain k "" false)) (key <$> columns).
Proof.
  induction columns as [| column columns IH]; [reflexivity |].
  cbn. now rewrite IH.
Qed.

Lemma filter_sublist {A} (f : A → bool) (l : list A) :
  List.filter f l `sublist_of` l.
Proof.
  induction l as [| x l IH]; cbn; [constructor |].
  destruct (f x); now constructor.
Qed.

(** C2: with a search text that is not empty the filter keeps exactly the
    records in which some column holds a value (not null, not absent) whose
    text contains the search text, both lower-cased: it is the selection, in
    order and with repetitions, by a test that holds of those records only;
    with the empty text it keeps every record; the records kept stay in
    their order; and two column lists with the same keys filter alike,
    whatever their renderers. *)
Theorem filteredData_retains
    (data : list item) (columns : list Column) (text : string) :
  (text ≠ "" →
   (∀ i, i ∈ filteredData data columns text ↔
         i ∈ data ∧ some_column_contains columns text i)
   ∧ ∃ test : item → bool,
       (∀ i, test i = true ↔ some_column_contains columns text i)
       ∧ filteredData data columns text = List.filter test data)
  ∧ filteredData data columns "" = data
  ∧ filteredData data columns text `sublist_of` data
  ∧ (∀ columns', key <$> columns' = key <$> columns →
     filteredData data columns' text = filteredData data columns text).
Proof.
  repeat apply conj.
  - intros Htext. unfold filteredData.
    apply String.eqb_neq in Htext. rewrite Htext. split.
    + intros i.
      rewrite !list_elem_of_In, filter_In, row_matches_spec. reflexivity.
    + eexists. split; [| reflexivity].
      intros i. apply row_matches_spec.
  - reflexivity.
  - unfold filteredData. destruct (String.eqb text ""); [reflexivity |].
    apply filter_sublist.
  - intros columns' Hkeys. unfold filteredData.
    destruct (String.eqb text ""); [reflexivity |].
    apply filter_ext. intros i.
    now rewrite !row_matches_by_key, Hkeys.
Qed.

(** *** Sort *)

Lemma compare_missing_first (c : SortConfig) (a b : item) :
  missing (sort_key c) a = true → compare c a b = 1.
Proof. unfold missing, compare. now intros ->. Qed.

Lemma compare_missing_second (c : SortConfig) (a b : item) :
  missing (sort_key c) a = false → missing (sort_key c) b = true →
  compare c a b = -1.
Proof. unfold missing, compare. now intros -> ->. Qed.

Lemma missing_stays (calls : CallOrder) (c : SortConfig) (x y : item) :
  missing (sort_key c) x = true → missing (sort_key c) y = false →
  JS.moves_before calls (compare c) x y = false.
Proof.
  intros Hx Hy. destruct calls; cbn.
  - now rewrite compare_missing_first.
  - now rewrite compare_missing_second.
Qed.

Lemma value_passes (calls : CallOrder) (c : SortConfig) (x y : item) :
  missing (sort_key c) x = false → missing (sort_key c) y = true →
  JS.moves_before calls (compare c) x y = true.
Proof.
  intros Hx Hy. destruct calls; cbn.
  - now rewrite compare_missing_second.
  - now rewrite compare_missing_first.
Qed.

(** C3: under an active sort specification, ascending or descending, the
    sorted list holds the filtered records, and every record without a value
    on the sort column stands after every record that has one. *)
Theorem sortedData_missing_last (filtered : list item) (c : SortConfig) :
  let sorted := sortedData filtered (Some c) in
  sorted ≡ₚ filtered
  ∧ ∀ (m n : nat) (a b : item),
      sorted !! m = Some a → sorted !! n = Some b →
      missing (sort_key c) a = true → missing (sort_key c) b = false →
      (n < m)%nat.
Proof.
  cbn. split; [apply JSFacts.sort_perm |].
  intros m n a b Hm Hn Ha Hb.
  pose proof (JSFacts.sort_missing_last sort_calls (compare c)
                (missing (sort_key c)) (missing_stays _ c) (value_passes _ c)
                filtered) as Hsorted.
  destruct (Nat.lt_trichotomy m n) as [Hlt | [-> | Hgt]]; [| | exact Hgt].
  - pose proof (JSFacts.StronglySorted_lookup _ _ _ _ _ _ Hsorted Hm Hn Hlt Ha).
    congruence.
  - congruence.
Qed.

(** Stability: records that tie with one another keep their filtered order,
    whatever the call order of the host.  [P] selects any set of records
    every two of which the comparator answers 0 for. *)
Theorem sortedData_ties_keep_order
    (filtered : list item) (c : SortConfig) (P : item → bool) :
  (∀ a b, P a = true → P b = true → compare c a b = 0) →
  List.filter P (sortedData filtered (Some c)) = List.filter P filtered.
Proof.
  intros Htie. cbn. apply JSFacts.sort_keeps_order_within.
  intros x y Hx Hy. destruct sort_calls; cbn.
  - now rewrite (Htie x y Hx Hy).
  - now rewrite (Htie y x Hy Hx).
Qed.

(** C4, the comparator on records without a value: it answers 1 whenever its
    first record has no value on the sort column, so two such records are no
    tie for it in either order; where they end up depends on the host: in
    their filtered order when the inserted element is handed first, in the
    reverse of it when the earlier element is handed first. *)
Theorem missing_records_are_no_tie (filtered : list item) (c : SortConfig) :
  (∀ a b, missing (sort_key c) a = true → compare c a b = 1)
  ∧ List.filter (missing (sort_key c)) (sortedData filtered (Some c))
    = match sort_calls with
      | LaterFirst => List.filter (missing (sort_key c)) filtered
      | EarlierFirst => rev (List.filter (missing (sort_key c)) filtered)
      end.
Proof.
  split; [intros a b; apply compare_missing_first |].
  cbn [sortedData]. destruct sort_calls.
  - apply JSFacts.sort_keeps_order_within. intros x y Hx _. cbn.
    now rewrite (compare_missing_first c x y Hx).
  - apply JSFacts.sort_missing_reversed.
    + apply missing_stays.
    + apply value_passes.
    + intros x y _ Hy. cbn. now rewrite (compare_missing_first c y x Hy).
Qed.

(** *** Header clicks *)

(** C5: a click on the sortable header of column [k] takes a state with no
    sort on [k] (none at all, or one on another column) to ascending on [k],
    ascending on [k] to descending on [k], and descending on [k] to no sort;
    three clicks from no sort come back to no sort, and a click on [k] while
    another column is sorted starts ascending on [k]. *)
Theorem handleSort_cycle (k : string) :
  (∀ current,
     (∀ d, current ≠ Some {| sort_key := k; sort_direction := d |}) →
     handleSort k current = Some {| sort_key := k; sort_direction := asc |})
  ∧ handleSort k (Some {| sort_key := k; sort_direction := asc |})
    = Some {| sort_key := k; sort_direction := desc |}
  ∧ handleSort k (Some {| sort_key := k; sort_direction := desc |}) = None
  ∧ handleSort k (handleSort k (handleSort k None)) = None
  ∧ (∀ other d, other ≠ k →
     handleSort k (Some {| sort_key := other; sort_direction := d |})
     = Some {| sort_key := k; sort_direction := asc |})
  ∧ (∀ p st column, sortable column = true → key column = k →
     sortConfig (handle p st (HeaderClick column))
     = handleSort k (sortConfig st)
     ∧ searchQuery (handle p st (HeaderClick column)) = searchQuery st
     ∧ currentPage (handle p st (HeaderClick column)) = currentPage st).
Proof.
  assert (Hsame : String.eqb k k = true) by apply String.eqb_refl.
  repeat apply conj.
  - intros [[k' d] |] Hother; cbn; [| reflexivity].
    destruct (String.eqb_spec k' k) as [-> | _]; [| reflexivity].
    now destruct (Hother d).
  - cbn. now rewrite Hsame.
  - cbn. now rewrite Hsame.
  - cbn. rewrite Hsame. cbn. now rewrite Hsame.
  - intros other d Hother. cbn.
    now destruct (String.eqb_spec other k).
  - intros p st column Hsortable <-. cbn. now rewrite Hsortable.
Qed.

(** *** Pages *)

Lemma paginatedData_window (sorted : list item) (p size : Z) :
  1 ≤ p → 1 ≤ size →
  paginatedData sorted p size
  = take (Z.to_nat size) (drop (Z.to_nat ((p - 1) * size)) sorted).
Proof.
  intros Hp Hsize. unfold paginatedData.
  rewrite JSFacts.slice_window by nia.
  do 2 f_equal. lia.
Qed.

(** C6: the page size is the one the props give, and 10 when they give
    none; 25 records in pages of 10 make 3 pages, the third holding exactly
    the last 5; page [p] of size [size] holds, in order, the records at
    positions [(p-1)*size] to [p*size - 1] of the sorted list, as far as they
    exist; and the page the table shows is that page of the filtered and
    sorted list at the current page number and the configured size: its rows
    are the records of the page in their order, and the page count of the
    footer is taken at the same size. *)
Theorem paginatedData_pages :
  (∀ p, pageSize p = None → pageSize_of p = 10)
  ∧ (∀ p size, pageSize p = Some size → pageSize_of p = size)
  ∧ (∀ sorted : list item, length sorted = 25%nat →
     totalPages (Z.of_nat (length sorted)) 10 = Pages 3
     ∧ paginatedData sorted 3 10 = drop 20 sorted
     ∧ length (paginatedData sorted 3 10) = 5%nat)
  ∧ (∀ (sorted : list item) (p size : Z), 1 ≤ p → 1 ≤ size →
     (∀ k : nat, (Z.of_nat k < size) →
        paginatedData sorted p size !! k
        = sorted !! (Z.to_nat ((p - 1) * size) + k)%nat)
     ∧ Z.of_nat (length (paginatedData sorted p size)) ≤ size
     ∧ ∃ n, totalPages (Z.of_nat (length sorted)) size = Pages n
            ∧ (n - 1) * size < Z.of_nat (length sorted) ≤ n * size)
  ∧ (∀ (p : Props) (st : State) (size : Z),
     size = match pageSize p with Some given => given | None => 10 end →
     page_of p st
     = paginatedData
         (sortedData (filteredData (data p) (columns p) (searchQuery st))
            (sortConfig st))
         (currentPage st) size
     ∧ (isLoading_of p = false →
        snd (DataTable p st)
        = Table (body_of p (page_of p st)) (footer_of p st))
     ∧ (∀ i rest, page_of p st = i :: rest →
        body_of p (page_of p st)
        = Rows (map (λ r, (keyExtractor p r,
                           map (λ column, cell column r) (columns p)))
                  (page_of p st)))
     ∧ (1 ≤ currentPage st → 1 ≤ size →
        ∀ k : nat, Z.of_nat k < size →
          page_of p st !! k
          = sorted_of p st
              !! (Z.to_nat ((currentPage st - 1) * size) + k)%nat)
     ∧ (∀ f, footer_of p st = Some f →
        shown_pages f
        = totalPages (Z.of_nat (length (sorted_of p st))) size)).
Proof.
  repeat apply conj.
  - intros p Hp. unfold pageSize_of. now rewrite Hp.
  - intros p size Hp. unfold pageSize_of. now rewrite Hp.
  - intros sorted Hlen. rewrite Hlen. split; [reflexivity |].
    rewrite paginatedData_window by lia.
    assert (Hdrop : length (drop 20 sorted) = 5%nat)
      by (rewrite length_drop; lia).
    change (Z.to_nat ((3 - 1) * 10)) with 20%nat.
    rewrite take_ge by lia. auto.
  - intros sorted p size Hp Hsize. repeat apply conj.
    + intros k Hk. rewrite paginatedData_window by lia.
      rewrite lookup_take_lt by lia. now rewrite lookup_drop.
    + rewrite paginatedData_window by lia. rewrite length_take. lia.
    + unfold totalPages. destruct (Z.eqb_spec size 0) as [| _]; [lia |].
      eexists. split; [reflexivity |].
      set (len := Z.of_nat (length sorted)).
      pose proof (Z.div_mod (- len) size ltac:(lia)) as Hdiv.
      pose proof (Z.mod_pos_bound (- len) size ltac:(lia)) as Hmod.
      nia.
  - intros p st size Hsize.
    assert (Hconfigured : pageSize_of p = size)
      by (subst size; unfold pageSize_of; now destruct (pageSize p)).
    repeat apply conj.
    + unfold page_of. now rewrite Hconfigured.
    + intros Hloaded. cbn. unfold render_view. now rewrite Hloaded.
    + intros i rest ->. reflexivity.
    + intros Hpage Hpos k Hk. unfold page_of. rewrite Hconfigured.
      rewrite paginatedData_window by lia.
      rewrite lookup_take_lt by lia. now rewrite lookup_drop.
    + intros f. unfold footer_of. cbv zeta. rewrite Hconfigured.
      destruct (more_than_one _); [| discriminate]. now intros [= <-].
Qed.

Lemma footer_shows_current_page (p : Props) (st : State) (f : Footer) :
  footer_of p st = Some f → shown_page f = currentPage st.
Proof.
  unfold footer_of. destruct (more_than_one _); [| discriminate].
  now intros [= <-].
Qed.

Lemma handle_keeps_page_positive (p : Props) (st : State) (e : Event) :
  1 ≤ currentPage st → 1 ≤ currentPage (handle p st e).
Proof.
  intros Hpos. destruct e as [text | column | | | rowKey |]; cbn; try exact Hpos.
  - now destruct (sortable column).
  - destruct (footer_of p st) as [f |] eqn:Ef; [| exact Hpos].
    rewrite (footer_shows_current_page p st f Ef). unfold Pagination_prev.
    destruct (Z.eqb_spec (currentPage st) 1); cbn; lia.
  - destruct (footer_of p st) as [f |] eqn:Ef; [| exact Hpos].
    rewrite (footer_shows_current_page p st f Ef). unfold Pagination_next.
    destruct (page_is _ _); cbn; lia.
Qed.

(** The page number of the table starts at 1 and never goes below it. *)
Theorem page_number_is_positive (steps : list (Props * Event)) :
  1 ≤ currentPage (after steps).
Proof.
  unfold after. assert (Hinit : 1 ≤ currentPage initial) by (cbn; lia).
  revert Hinit. generalize initial.
  induction steps as [| [p e] steps IH]; intros st Hst; cbn; [exact Hst |].
  apply IH. now apply handle_keeps_page_positive.
Qed.

(** C9: when the current page starts at or past the end of the sorted list,
    the page is empty and the placeholder is shown in place of rows; the
    rendering hands the state back as it was, page number included, and
    neither a re-rendering nor a new search text moves the page number. *)
Theorem page_out_of_range (p : Props) (st : State) :
  Z.of_nat (length (sorted_of p st)) ≤ (currentPage st - 1) * pageSize_of p →
  page_of p st = []
  ∧ (isLoading_of p = false →
     ∃ footer,
       snd (DataTable p st)
       = Table (EmptyState (emptyTitle_of p) (emptyDescription_of p)) footer)
  ∧ fst (DataTable p st) = st
  ∧ currentPage (fst (DataTable p st)) = currentPage st
  ∧ (∀ text, currentPage (handle p st (Search text)) = currentPage st).
Proof.
  intros Hpast.
  assert (Hempty : page_of p st = [])
    by (unfold page_of, paginatedData; now apply JSFacts.slice_past_the_end).
  repeat apply conj; try reflexivity; [exact Hempty |].
  intros Hloaded. cbn. unfold render_view. rewrite Hloaded, Hempty.
  eexists. reflexivity.
Qed.
End WithHost.

(** C4, at the failing input: for two records without a name, sorted by
    name, the comparator answers 1 whichever comes first (and 1 for a record
    against itself), so the pair is no tie; a host that hands the inserted
    element first leaves them as they were, one that hands the earlier
    element first exchanges them. *)
Lemma both_missing_is_no_tie :
  let c := by_name asc in
  @compare (Reference.host LaterFirst) c r2 r4 = 1
  ∧ @compare (Reference.host LaterFirst) c r4 r2 = 1
  ∧ @compare (Reference.host LaterFirst) c r2 r2 = 1
  ∧ ids (@sortedData (Reference.host LaterFirst) [r2; r4] (Some c))
    = [JStr "r2"; JStr "r4"]
  ∧ ids (@sortedData (Reference.host EarlierFirst) [r2; r4] (Some c))
    = [JStr "r4"; JStr "r2"].
Proof. vm_compute. repeat split. Qed.

(** Witness of [sortedData_ties_keep_order]: the sample rows by city; three
    of them are in Austin. *)
Lemma sortedData_ties_keep_order_witness :
  let h := Reference.host EarlierFirst in
  List.filter (in_city "Austin")
    (@sortedData h sample_rows (Some (by_city desc)))
  = [r1; r3; r5].
Proof.
  cbv zeta.
  rewrite (@sortedData_ties_keep_order (Reference.host EarlierFirst)
             sample_rows (by_city desc) (in_city "Austin")).
  - vm_compute. reflexivity.
  - intros a b. unfold in_city, compare. cbn [sort_key by_city].
    destruct (get a "city") as [| | | | s]; try discriminate.
    destruct (get b "city") as [| | | | t]; try discriminate.
    intros ->%String.eqb_eq ->%String.eqb_eq. reflexivity.
Defined.

(** C2, witness: the search text "A" keeps [r1], whose name is Delta. *)
Lemma filteredData_retains_witness :
  let h := Reference.host LaterFirst in
  @some_column_contains h sample_columns "A" r1.
Proof.
  destruct (@filteredData_retains (Reference.host LaterFirst)
              sample_rows sample_columns "A") as (retained & _).
  destruct (retained ltac:(discriminate)) as (members & _).
  apply (members r1).
  vm_compute. left.
Defined.

(** C3, witness: by name, descending, [r2] has no name and stands at
    position 3, [r1] has one and stands at position 1. *)
Lemma sortedData_missing_last_witness :
  let h := Reference.host LaterFirst in
  let sorted := @sortedData h sample_rows (Some (by_name desc)) in
  sorted !! 3%nat = Some r2 ∧ sorted !! 1%nat = Some r1 ∧ (1 < 3)%nat.
Proof.
  destruct (@sortedData_missing_last (Reference.host LaterFirst)
              sample_rows (by_name desc)) as (_ & last).
  assert (third : @sortedData (Reference.host LaterFirst) sample_rows
                    (Some (by_name desc)) !! 3%nat = Some r2)
    by (vm_compute; reflexivity).
  assert (first : @sortedData (Reference.host LaterFirst) sample_rows
                    (Some (by_name desc)) !! 1%nat = Some r1)
    by (vm_compute; reflexivity).
  exact (conj third (conj first (last 3%nat 1%nat r2 r1 third first
                                   eq_refl eq_refl))).
Defined.

(** C6, witness: 25 numbered records in pages of 10; and 12 records under
    a configured page size of 5, where the third page shows the records 11
    and 12 and the footer counts 3 pages. *)
Lemma paginatedData_pages_witness :
  let h := Reference.host LaterFirst in
  (totalPages (Z.of_nat (length (numbered 25))) 10 = Pages 3
   ∧ paginatedData (numbered 25) 3 10 = drop 20 (numbered 25)
   ∧ length (paginatedData (numbered 25) 3 10) = 5%nat)
  ∧ pageSize_of (sized_props (numbered 12) 5) = 5
  ∧ @page_of h (sized_props (numbered 12) 5) (on_page 3)
    = paginatedData (numbered 12) 3 5
  ∧ ids (@page_of h (sized_props (numbered 12) 5) (on_page 3))
    = [JStr "11"; JStr "12"]
  ∧ snd (@DataTable.DataTable h (sized_props (numbered 12) 5) (on_page 3))
    = Table (Rows [("11", ["11"]); ("12", ["12"])])
        (Some {| showing_from := 11; showing_to := 12; showing_of := 12;
                 shown_page := 3; shown_pages := Pages 3 |}).
Proof.
  destruct (@paginatedData_pages (Reference.host LaterFirst))
    as (_ & configured & example & _ & shown).
  destruct (shown (sized_props (numbered 12) 5) (on_page 3) 5 eq_refl)
    as (Hpage & Hview & _).
  repeat apply conj.
  - exact (proj1 (example (numbered 25) eq_refl)).
  - exact (proj1 (proj2 (example (numbered 25) eq_refl))).
  - exact (proj2 (proj2 (example (numbered 25) eq_refl))).
  - exact (configured (sized_props (numbered 12) 5) 5 eq_refl).
  - exact Hpage.
  - rewrite Hpage. vm_compute. reflexivity.
  - rewrite (Hview eq_refl). vm_compute. reflexivity.
Defined.

(** C9, witness: 20 records in pages of 10, the table left on page 3. *)
Lemma page_out_of_range_witness :
  let h := Reference.host LaterFirst in
  @page_of h (sample_props (numbered 20)) (on_page 3) = []
  ∧ currentPage (fst (@DataTable.DataTable h (sample_props (numbered 20))
                        (on_page 3))) = 3.
Proof.
  destruct (@page_out_of_range (Reference.host LaterFirst)
              (sample_props (numbered 20)) (on_page 3))
    as (empty & _ & _ & page & _).
  - vm_compute. discriminate.
  - exact (conj empty page).
Defined.

(** The sample rows by name, in both directions, on hosts of both call
    orders: the three records with a name, then [r2] and [r4], which have
    none. *)
Lemma sortedData_missing_last_example :
  ∀ calls d,
    missing "name"
      <$> @sortedData (Reference.host calls) sample_rows (Some (by_name d))
    = [false; false; false; true; true].
Proof. intros [] []; vm_compute; reflexivity. Qed.

(** By name, ascending: Bravo, Delta, alpha (capitals come first in code
    unit order), then the two records without a name, in filtered order on
    one host and exchanged on the other. *)
Lemma sortedData_by_name_example :
  ids (@sortedData (Reference.host LaterFirst) sample_rows (Some (by_name asc)))
  = [JStr "r5"; JStr "r1"; JStr "r3"; JStr "r2"; JStr "r4"]
  ∧ ids (@sortedData (Reference.host EarlierFirst) sample_rows
           (Some (by_name asc)))
    = [JStr "r5"; JStr "r1"; JStr "r3"; JStr "r4"; JStr "r2"].
Proof. vm_compute. split; reflexivity. Qed.

End DataTableFacts.

(** ** The page controllers *)
Module PagesFacts.
Import Pages.

Lemma invalidateQueries_cache (k : string) (w : World) :
  cache (invalidateQueries k w) !! k
  = (λ q, {| fetched := fetched q; invalidated := true |}) <$> cache w !! k.
Proof. cbn. apply lookup_alter_eq. Qed.

Lemma onSuccess_cache (p : Page) (m : Mutation) (w : World) :
  cache (onSuccess p m w) = cache (invalidateQueries (queryKey p) w).
Proof. now destruct m. Qed.

(** C7: when a create, update or delete of any of the three pages succeeds,
    its modal or dialog is closed (the other two cells of the modal state
    stay), the cached list of the page is marked for a refetch and one
    success notification is added; when it fails, one
    failure notification is added and nothing else changes: the modal state
    and the cache, hence the list on display, are what they were.  So a
    failed delete leaves the dialog open on its record and the record in the
    list. *)
Theorem settle_mutation (p : Page) (m : Mutation) (w : World) :
  (let w' := settle p m Fulfilled w in
   is_open m w' = false
   ∧ modals w' = modals (close m w)
   ∧ (∀ q, cache w !! queryKey p = Some q →
      cache w' !! queryKey p
      = Some {| fetched := fetched q; invalidated := true |}
      ∧ due_for_refetch p w' = true)
   ∧ toasts w' = toasts w ++ [toast_success (success_message p m)])
  ∧ (let w' := settle p m Rejected w in
     modals w' = modals w
     ∧ cache w' = cache w
     ∧ toasts w' = toasts w ++ [toast_error (failure_message p m)]
     ∧ is_open m w' = is_open m w
     ∧ displayed p w' = displayed p w)
  ∧ (∀ r, deleting (modals w) = Some r → r ∈ displayed p w →
     let w' := settle p deleteMutation Rejected w in
     deleting (modals w') = Some r
     ∧ is_open deleteMutation w' = true
     ∧ r ∈ displayed p w').
Proof.
  repeat apply conj; try reflexivity.
  - cbn [settle]. destruct m; reflexivity.
  - cbn [settle]. destruct m; reflexivity.
  - intros q Hq. cbn [settle].
    assert (Hcache : cache (onSuccess p m w) !! queryKey p
                     = Some {| fetched := fetched q; invalidated := true |}).
    { rewrite onSuccess_cache, invalidateQueries_cache. now rewrite Hq. }
    split; [exact Hcache |]. unfold due_for_refetch. now rewrite Hcache.
  - cbn [settle]. destruct m; reflexivity.
  - intros r Hr Hin. cbn. rewrite Hr. repeat split. exact Hin.
Qed.

(** C7, witness: the property page with its delete dialog open; the delete
    fails. *)
Lemma settle_mutation_witness :
  let w' := settle PropertiesPage deleteMutation Rejected sample_world in
  deleting (modals w') = Some sample_property
  ∧ is_open deleteMutation w' = true
  ∧ sample_property ∈ displayed PropertiesPage w'.
Proof.
  destruct (settle_mutation PropertiesPage deleteMutation sample_world)
    as (_ & _ & failed_delete).
  apply (failed_delete sample_property); [reflexivity |].
  vm_compute. left.
Defined.

End PagesFacts.

(** ** The dashboard *)
Module DashboardFacts.
Import Dashboard.

Section WithHost.
Context `{Host}.

Lemma totalLoanValue_from (total : float) (applications : list LoanApplication) :
  fold_left (λ sum a, (sum + loanAmount a)%float) applications total
  = added_up total (loanAmount <$> applications).
Proof.
  revert total. induction applications as [| a rest IH]; intros total; cbn.
  - reflexivity.
  - apply IH.
Qed.

Lemma is_pending_spec (s : LoanStatus) :
  is_pending s = bool_decide (s = Submitted ∨ s = UnderReview).
Proof. now destruct s. Qed.

Lemma pendingReview_count (applications : list LoanApplication) :
  pendingReview applications
  = length (filter (λ a, status a = Submitted ∨ status a = UnderReview)
              applications).
Proof.
  unfold pendingReview.
  induction applications as [| a rest IH]; [reflexivity |].
  cbn [List.filter]. rewrite filter_cons, is_pending_spec.
  destruct (decide (status a = Submitted ∨ status a = UnderReview)) as [Hp | Hp].
  - rewrite bool_decide_eq_true_2 by exact Hp. cbn [length]. now f_equal.
  - rewrite bool_decide_eq_false_2 by exact Hp. exact IH.
Qed.

(** With valid dates an application moves before another exactly when it is
    strictly newer, whichever way the host calls the comparator. *)
Lemma newest_moves_first (calls : CallOrder) (x y : LoanApplication) :
  is_Some (created x) → is_Some (created y) →
  JS.moves_before calls newest_first x y = (time_of y <? time_of x).
Proof.
  intros [tx Hx] [ty Hy]. unfold time_of, newest_first.
  destruct calls; cbn; rewrite Hx, Hy; cbn.
  - destruct (Z.ltb_spec (ty - tx) 0), (Z.ltb_spec ty tx); (reflexivity || lia).
  - destruct (Z.ltb_spec 0 (tx - ty)), (Z.ltb_spec ty tx); (reflexivity || lia).
Qed.

(** C8: the total is the loan amounts added up from the left, starting from
    0, and the pending count is the number of applications whose status is
    Submitted or UnderReview.  The creation time of an application is what
    the date parser makes of its [createdAt].  For every list the recent
    list holds five applications of the list (all of them when there are
    fewer), none more often than the list does.  When every [createdAt] is
    a date, it runs from the newest to the oldest and no application left
    out is newer than one that is listed. *)
Theorem dashboard_figures (applications : list LoanApplication) :
  totalLoanValue applications = added_up 0 (loanAmount <$> applications)
  ∧ pendingReview applications
    = length (filter (λ a, status a = Submitted ∨ status a = UnderReview)
                applications)
  ∧ (∀ a b,
       newest_first a b
       = match Date_getTime (createdAt b), Date_getTime (createdAt a) with
         | Some tb, Some ta => tb - ta
         | _, _ => 0
         end)
  ∧ (recentApps applications ⊆+ applications
     ∧ length (recentApps applications) = Nat.min 5 (length applications))
  ∧ (Forall (λ a, is_Some (Date_getTime (createdAt a))) applications →
     let recent := recentApps applications in
     let stamp := λ a, default 0 (Date_getTime (createdAt a)) in
     StronglySorted (λ a b, stamp b ≤ stamp a) recent
     ∧ ∃ older,
         recent ++ older ≡ₚ applications
         ∧ ∀ a b, a ∈ recent → b ∈ older → stamp b ≤ stamp a).
Proof.
  assert (Hperm : JS.sort sort_calls newest_first applications ≡ₚ applications)
    by apply JSFacts.sort_perm.
  repeat apply conj.
  - apply totalLoanValue_from.
  - apply pendingReview_count.
  - reflexivity.
  - unfold recentApps. rewrite JSFacts.slice_from_start by lia.
    rewrite <- Hperm at 2. apply sublist_submseteq, sublist_take.
  - unfold recentApps. rewrite JSFacts.slice_from_start by lia.
    change (Z.to_nat 5) with 5%nat.
    now rewrite length_take, (Permutation_length Hperm).
  - intros Hvalid. cbv zeta. unfold recentApps.
    rewrite JSFacts.slice_from_start by lia.
    change (Z.to_nat 5) with 5%nat.
    set (sorted := JS.sort sort_calls newest_first applications) in *.
    assert (Hsorted : StronglySorted (λ a b, time_of b ≤ time_of a) sorted).
    { apply (JSFacts.sort_descending sort_calls newest_first time_of
               (λ a, is_Some (created a)));
        [apply newest_moves_first | exact Hvalid]. }
    rewrite <- (take_drop 5 sorted) in Hsorted, Hperm.
    apply StronglySorted_app in Hsorted as (Hsplit & Htake & _).
    repeat apply conj.
    + exact Htake.
    + exists (drop 5 sorted). split; [exact Hperm |].
      intros a b Ha Hb. now apply Hsplit.
Qed.
End WithHost.

(** C8, witness: seven applications whose creation dates are dates and
    differ from their application dates.  The recent list runs from the one
    created in July back to the one created in March. *)
Lemma dashboard_figures_witness :
  let h := Reference.host LaterFirst in
  let recent := @recentApps h dated_applications in
  let stamp := λ a, default 0 (@Date_getTime h (createdAt a)) in
  id <$> recent = ["d3"; "d5"; "d7"; "d6"; "d4"]
  ∧ createdAt <$> recent
    = ["2024-07-01T00:00:00Z"; "2024-06-01T00:00:00Z";
       "2024-05-01T00:00:00Z"; "2024-04-01T00:00:00Z";
       "2024-03-01T00:00:00Z"]
  ∧ StronglySorted (λ a b, stamp b ≤ stamp a) recent
  ∧ ∃ older,
      recent ++ older ≡ₚ dated_applications
      ∧ ∀ a b, a ∈ recent → b ∈ older → stamp b ≤ stamp a.
Proof.
  split; [vm_compute; reflexivity |]. split; [vm_compute; reflexivity |].
  destruct (@dashboard_figures (Reference.host LaterFirst) dated_applications)
    as (_ & _ & _ & _ & recent).
  apply recent.
  repeat constructor; eexists; vm_compute; reflexivity.
Defined.

(** C8, where the claim fails: five applications, then one whose
    [createdAt] is no date, then the newest of all.  The comparator answers
    NaN, read as 0, for every pair with the undated application, so the
    newest never gets past it: on either host the recent list is the five
    older applications, each of them created before the newest, which is
    left out.  Every listed creation date is a date, so the list is drawn. *)
Lemma newest_is_left_out :
  let recent calls := @recentApps (Reference.host calls) undated_applications in
  let stamp := λ a, default 0 (Reference.Date_getTime (createdAt a)) in
  id <$> recent LaterFirst = ["o1"; "o2"; "o3"; "o4"; "o5"]
  ∧ id <$> recent EarlierFirst = ["o1"; "o2"; "o3"; "o4"; "o5"]
  ∧ newest_application ∈ undated_applications
  ∧ is_Some (Reference.Date_getTime (createdAt newest_application))
  ∧ Forall (λ a, is_Some (Reference.Date_getTime (createdAt a))
                 ∧ stamp a < stamp newest_application)
      (recent LaterFirst)
  ∧ (length undated_applications = 7)%nat.
Proof.
  cbv zeta. repeat apply conj.
  - vm_compute. reflexivity.
  - vm_compute. reflexivity.
  - unfold undated_applications. do 6 apply list_elem_of_further.
    apply list_elem_of_here.
  - eexists. vm_compute. reflexivity.
  - repeat (apply Forall_cons; split;
            [split; [eexists; vm_compute; reflexivity
                    | vm_compute; reflexivity] |]).
    apply Forall_nil. exact I.
  - reflexivity.
Qed.

(** On both hosts the recent list of the sample is a4, a5, a6, a2, a3 (June
    back to February), the total is 1820000 and three are pending. *)
Lemma dashboard_sample :
  ∀ calls,
    id <$> @recentApps (Reference.host calls) sample_applications
    = ["a4"; "a5"; "a6"; "a2"; "a3"]
    ∧ totalLoanValue sample_applications = 1820000%float
    ∧ pendingReview sample_applications = 3%nat.
Proof. intros []; vm_compute; repeat split. Qed.

End DashboardFacts.

(** ** Facts about texts *)
Module TextFacts.

Lemma append_assoc (s t u : string) : (s +:+ t) +:+ u = s +:+ (t +:+ u).
Proof.
  induction s as [| c s IH]; [reflexivity |].
  now rewrite !JSFacts.append_cons, IH.
Qed.

Lemma append_nil_r (s : string) : s +:+ "" = s.
Proof.
  induction s as [| c s IH]; [reflexivity |].
  now rewrite JSFacts.append_cons, IH.
Qed.

End TextFacts.

(** ** The orders of texts and numbers, and sorting by an order *)
Module OrderFacts.

(** *** The order of texts *)
Lemma ascii_compare_lt (a b : ascii) :
  Ascii.compare a b = Lt ↔ (N_of_ascii a < N_of_ascii b)%N.
Proof. unfold Ascii.compare. now rewrite N.compare_lt_iff. Qed.

Lemma ascii_compare_eq (a b : ascii) : Ascii.compare a b = Eq ↔ a = b.
Proof.
  unfold Ascii.compare. rewrite N.compare_eq_iff. split; [| now intros ->].
  intros E. rewrite <- (ascii_N_embedding a), <- (ascii_N_embedding b).
  now rewrite E.
Qed.

Lemma string_compare_refl (s : string) : String.compare s s = Eq.
Proof.
  induction s as [| c s IH]; cbn; [reflexivity |].
  now rewrite (proj2 (ascii_compare_eq c c) eq_refl).
Qed.

Lemma string_lt_trans (s t u : string) :
  String.compare s t = Lt → String.compare t u = Lt → String.compare s u = Lt.
Proof.
  revert t u. induction s as [| a s IH]; intros [| b t] [| c u]; cbn;
    try congruence.
  destruct (Ascii.compare a b) eqn:Eab; try discriminate;
    destruct (Ascii.compare b c) eqn:Ebc; try discriminate; intros Hst Htu.
  - apply ascii_compare_eq in Eab as ->. rewrite Ebc. eauto.
  - apply ascii_compare_eq in Eab as ->. now rewrite Ebc.
  - apply ascii_compare_eq in Ebc as <-. now rewrite Eab.
  - apply ascii_compare_lt in Eab. apply ascii_compare_lt in Ebc.
    assert (E : Ascii.compare a c = Lt)
      by (apply ascii_compare_lt; eapply N.lt_trans; eassumption).
    now rewrite E.
Qed.

(** [s <= t] on texts: [t < s] is false. *)
Lemma string_not_lt_trans (s t u : string) :
  String.ltb t s = false → String.ltb u t = false → String.ltb u s = false.
Proof.
  unfold String.ltb. intros Hst Htu.
  destruct (String.compare u s) eqn:Eus; try reflexivity.
  destruct (String.compare t s) eqn:Ets; try discriminate.
  - apply String.compare_eq_iff in Ets as ->. now rewrite Eus in Htu.
  - destruct (String.compare u t) eqn:Eut; try discriminate.
    + apply String.compare_eq_iff in Eut as ->. now rewrite Eus in Ets.
    + rewrite String.compare_antisym in Ets, Eut.
      destruct (String.compare s t) eqn:Est; try discriminate.
      destruct (String.compare t u) eqn:Etu; try discriminate.
      pose proof (string_lt_trans _ _ _ Est Etu) as Hsu.
      rewrite String.compare_antisym, Hsu in Eus. discriminate.
Qed.

Lemma string_lt_asym (s t : string) :
  String.ltb s t = true → String.ltb t s = false.
Proof.
  unfold String.ltb. rewrite (String.compare_antisym s t).
  now destruct (String.compare t s).
Qed.

(** *** The order of numbers that are not NaN *)
Lemma SFltb_asym (x y : spec_float) : SFltb x y = true → SFltb y x = false.
Proof.
  unfold SFltb.
  destruct x as [sx | sx | | sx mx ex], y as [sy | sy | | sy my ey]; cbn;
    try destruct sx; try destruct sy; try discriminate; try reflexivity.
  all: fold (Pos.compare mx my) (Pos.compare my mx).
  all: repeat match goal with
       | |- context [Z.compare ?a ?b] => destruct (Z.compare_spec a b)
       | |- context [Pos.compare ?a ?b] => destruct (Pos.compare_spec a b)
       end; cbn; try discriminate; try reflexivity; try lia.
Qed.

Lemma SF_not_lt_trans (x y z : spec_float) :
  Numbers.SF_is_nan x = false → Numbers.SF_is_nan y = false → Numbers.SF_is_nan z = false →
  SFltb y x = false → SFltb z y = false → SFltb z x = false.
Proof.
  unfold SFltb.
  destruct x as [sx | sx | | sx mx ex], y as [sy | sy | | sy my ey],
           z as [sz | sz | | sz mz ez]; cbn;
    try destruct sx; try destruct sy; try destruct sz;
    try discriminate; try reflexivity; intros _ _ _.
  all: fold (Pos.compare mx my) (Pos.compare my mx) (Pos.compare my mz)
            (Pos.compare mz my) (Pos.compare mz mx) (Pos.compare mx mz).
  all: repeat match goal with
       | |- context [Z.compare ?a ?b] => destruct (Z.compare_spec a b)
       | |- context [Pos.compare ?a ?b] => destruct (Pos.compare_spec a b)
       end; cbn; try discriminate; try reflexivity; try lia.
Qed.

Lemma float_not_nan (x : float) : is_nan x = false → Numbers.SF_is_nan (Prim2SF x) = false.
Proof.
  unfold is_nan. rewrite FloatAxioms.eqb_spec. unfold SFeqb.
  now destruct (Prim2SF x).
Qed.

Lemma float_lt_asym (x y : float) : (x <? y)%float = true → (y <? x)%float = false.
Proof. rewrite !FloatAxioms.ltb_spec. apply SFltb_asym. Qed.

Lemma float_not_lt_trans (x y z : float) :
  is_nan x = false → is_nan y = false → is_nan z = false →
  (y <? x)%float = false → (z <? y)%float = false → (z <? x)%float = false.
Proof.
  rewrite !FloatAxioms.ltb_spec. intros Hx Hy Hz.
  apply SF_not_lt_trans; now apply float_not_nan.
Qed.

(** *** A comparator that follows a total preorder *)
Section ByOrder.
Context {A : Type} (calls : CallOrder) (comparefn : A → A → Z).
Context (le : A → A → Prop) (ok : A → Prop).

#[local] Abbreviation moves_before := (JS.moves_before calls comparefn).
#[local] Abbreviation insert_back := (JS.insert_back calls comparefn).
#[local] Abbreviation sort_from := (JS.sort_from calls comparefn).

Hypothesis le_trans :
  ∀ x y z, ok x → ok y → ok z → le x y → le y z → le x z.
Hypothesis moved : ∀ x y, ok x → ok y → moves_before x y = true → le x y.
Hypothesis stayed : ∀ x y, ok x → ok y → moves_before x y = false → le y x.

Lemma insert_back_ordered (x : A) (ordered : list A) :
  ok x → Forall ok ordered →
  StronglySorted (flip le) ordered →
  StronglySorted (flip le) (insert_back x ordered).
Proof.
  intros Hx Hok. induction 1 as [| y rest Hrest IH Hy]; cbn.
  - repeat constructor.
  - apply Forall_cons in Hok as [Hoky Hok].
    destruct (moves_before x y) eqn:Emove.
    + constructor; [now apply IH |].
      rewrite JSFacts.insert_back_perm. constructor; [| exact Hy].
      now apply moved.
    + constructor; [now constructor |].
      constructor; [now apply stayed |].
      rewrite Forall_forall in Hy, Hok. apply Forall_forall. intros z Hz.
      unfold flip in *. apply (le_trans z y x); auto.
Qed.

Lemma sort_ordered (l : list A) :
  Forall ok l → StronglySorted le (JS.sort calls comparefn l).
Proof.
  intros Hl. unfold JS.sort.
  assert (Hgen : ∀ todo ordered,
    Forall ok todo → Forall ok ordered →
    StronglySorted (flip le) ordered →
    StronglySorted le (sort_from ordered todo)).
  { induction todo as [| x todo IH]; intros ordered Htodo Hord Hsorted; cbn.
    - now apply JSFacts.StronglySorted_rev in Hsorted.
    - apply Forall_cons in Htodo as [Hx Htodo]. apply IH; [exact Htodo | |].
      + rewrite JSFacts.insert_back_perm. now constructor.
      + now apply insert_back_ordered. }
  apply Hgen; (assumption || constructor).
Qed.
End ByOrder.

End OrderFacts.

(** ** The tabular view: order, pages, footer and search together *)
Module TableFacts.
Import DataTable Ordering.

Section WithHost.
Context `{Host}.

(** *** The sorted list is in order *)
Section OneKind.
Context (c : SortConfig) (ok : item → Prop).

#[local] Abbreviation value i := (get i (sort_key c)).

Hypothesis lt_asym :
  ∀ a b, ok a → ok b → JS.nullish (value a) = false →
    JS.nullish (value b) = false →
    JS.lt (value a) (value b) = true → JS.lt (value b) (value a) = false.
Hypothesis not_lt_trans :
  ∀ a b d, ok a → ok b → ok d → JS.nullish (value a) = false →
    JS.nullish (value b) = false → JS.nullish (value d) = false →
    JS.lt (value b) (value a) = false → JS.lt (value d) (value b) = false →
    JS.lt (value d) (value a) = false.

Lemma in_order_trans (x y z : item) :
  ok x → ok y → ok z →
  in_order c x y = true → in_order c y z = true → in_order c x z = true.
Proof.
  intros Hx Hy Hz. unfold in_order. cbv zeta.
  destruct (JS.nullish (value z)) eqn:Ez; [reflexivity |].
  destruct (JS.nullish (value y)) eqn:Ey; [discriminate |].
  destruct (JS.nullish (value x)) eqn:Ex; [discriminate |]. cbn.
  rewrite !negb_true_iff.
  destruct (sort_direction c); intros Hxy Hyz.
  - exact (not_lt_trans x y z Hx Hy Hz Ex Ey Ez Hxy Hyz).
  - exact (not_lt_trans z y x Hz Hy Hx Ez Ey Ex Hyz Hxy).
Qed.

Lemma moved_in_order (calls : CallOrder) (x y : item) :
  ok x → ok y →
  JS.moves_before calls (compare c) x y = true → in_order c x y = true.
Proof.
  intros Hx Hy. unfold in_order. cbv zeta.
  destruct (JS.nullish (value y)) eqn:Ey; [reflexivity |].
  destruct (JS.nullish (value x)) eqn:Ex.
  - now rewrite (DataTableFacts.missing_stays calls c x y Ex Ey).
  - pose proof (lt_asym x y Hx Hy Ex Ey) as Hxy.
    pose proof (lt_asym y x Hy Hx Ey Ex) as Hyx.
    unfold JS.moves_before, compare, JS.gt. cbv zeta. rewrite Ex, Ey. cbn.
    destruct (JS.lt (value x) (value y)), (JS.lt (value y) (value x)),
      calls, (sort_direction c); cbn; try reflexivity; try discriminate;
      try (now specialize (Hxy eq_refl)); try (now specialize (Hyx eq_refl)).
Qed.

Lemma stayed_in_order (calls : CallOrder) (x y : item) :
  ok x → ok y →
  JS.moves_before calls (compare c) x y = false → in_order c y x = true.
Proof.
  intros Hx Hy. unfold in_order. cbv zeta.
  destruct (JS.nullish (value x)) eqn:Ex; [reflexivity |].
  destruct (JS.nullish (value y)) eqn:Ey.
  - now rewrite (DataTableFacts.value_passes calls c x y Ex Ey).
  - pose proof (lt_asym x y Hx Hy Ex Ey) as Hxy.
    pose proof (lt_asym y x Hy Hx Ey Ex) as Hyx.
    unfold JS.moves_before, compare, JS.gt. cbv zeta. rewrite Ex, Ey. cbn.
    destruct (JS.lt (value x) (value y)), (JS.lt (value y) (value x)),
      calls, (sort_direction c); cbn; try reflexivity; try discriminate;
      try (now specialize (Hxy eq_refl)); try (now specialize (Hyx eq_refl)).
Qed.

Lemma sorted_in_order (filtered : list item) :
  Forall ok filtered →
  StronglySorted (λ a b, in_order c a b = true)
    (sortedData filtered (Some c)).
Proof.
  intros Hok. cbn [sortedData].
  apply (OrderFacts.sort_ordered sort_calls (compare c)
           (λ a b, in_order c a b = true) ok);
    [exact in_order_trans | apply moved_in_order | apply stayed_in_order
    | exact Hok].
Qed.
End OneKind.

Lemma text_values_ordered (k : string) (a b : item) :
  text_or_nothing k a = true → text_or_nothing k b = true →
  JS.nullish (get a k) = false → JS.nullish (get b k) = false →
  ∃ s t, get a k = JStr s ∧ get b k = JStr t.
Proof.
  unfold text_or_nothing.
  destruct (get a k), (get b k); try discriminate; eauto.
Qed.

Lemma number_values_ordered (k : string) (a b : item) :
  number_or_nothing k a = true → number_or_nothing k b = true →
  JS.nullish (get a k) = false → JS.nullish (get b k) = false →
  ∃ x y, get a k = JNum x ∧ get b k = JNum y
         ∧ is_nan x = false ∧ is_nan y = false.
Proof.
  unfold number_or_nothing.
  destruct (get a k) as [| | | x |], (get b k) as [| | | y |];
    try discriminate. rewrite !negb_true_iff. eauto 10.
Qed.

(** When the sort column is of one kind, the sorted list is in order:
    ascending or descending by value, and the records without a value
    last. *)
Theorem sortedData_in_order (filtered : list item) (c : SortConfig) :
  one_kind (sort_key c) filtered →
  StronglySorted (λ a b, in_order c a b = true)
    (sortedData filtered (Some c)).
Proof.
  intros [Htext | Hnumber].
  - apply (sorted_in_order c (λ i, text_or_nothing (sort_key c) i = true));
      [| | exact Htext].
    + intros a b Ha Hb Ea Eb.
      destruct (text_values_ordered _ a b Ha Hb Ea Eb) as (s & t & -> & ->).
      apply OrderFacts.string_lt_asym.
    + intros a b d Ha Hb Hd Ea Eb Ed.
      destruct (text_values_ordered _ a b Ha Hb Ea Eb) as (s & t & -> & ->).
      destruct (text_values_ordered _ b d Hb Hd Eb Ed) as (? & u & E & ->).
      apply OrderFacts.string_not_lt_trans.
  - apply (sorted_in_order c (λ i, number_or_nothing (sort_key c) i = true));
      [| | exact Hnumber].
    + intros a b Ha Hb Ea Eb.
      destruct (number_values_ordered _ a b Ha Hb Ea Eb)
        as (x & y & -> & -> & _ & _).
      apply OrderFacts.float_lt_asym.
    + intros a b d Ha Hb Hd Ea Eb Ed.
      destruct (number_values_ordered _ a b Ha Hb Ea Eb)
        as (x & y & -> & Ey & Hx & Hy).
      destruct (number_values_ordered _ b d Hb Hd Eb Ed)
        as (? & z & _ & -> & _ & Hz).
      rewrite Ey. now apply OrderFacts.float_not_lt_trans.
Qed.

(** *** What a page shows *)

Lemma slice_sublist {A} (l : list A) (from to : Z) :
  JS.slice l from to `sublist_of` l.
Proof.
  unfold JS.slice. cbv zeta.
  etransitivity; [apply sublist_take | apply sublist_drop].
Qed.

Lemma page_of_submseteq (p : Props) (st : State) :
  page_of p st
  ⊆+ filteredData (data p) (columns p) (searchQuery st).
Proof.
  unfold page_of, paginatedData, sorted_of.
  etransitivity; [apply sublist_submseteq, slice_sublist |].
  apply Permutation_submseteq.
  destruct (sortConfig st) as [c |]; [apply JSFacts.sort_perm | reflexivity].
Qed.

(** The rows of a page are records of the data, none more often than the
    data holds it; while a search text is entered, every one of them has a
    column whose value contains the text. *)
Theorem page_rows_from_data (p : Props) (st : State) :
  page_of p st ⊆+ data p
  ∧ (searchQuery st ≠ "" →
     Forall (some_column_contains (columns p) (searchQuery st))
       (page_of p st)).
Proof.
  split.
  - etransitivity; [apply page_of_submseteq |].
    apply sublist_submseteq. unfold filteredData.
    destruct (String.eqb _ _); [reflexivity | apply DataTableFacts.filter_sublist].
  - intros Htext. apply Forall_forall. intros i Hi.
    pose proof (elem_of_submseteq _ _ _ Hi (page_of_submseteq p st)) as Hin.
    unfold filteredData in Hin. apply String.eqb_neq in Htext.
    rewrite Htext in Hin.
    apply list_elem_of_In, filter_In in Hin as [_ Hmatch].
    now apply DataTableFacts.row_matches_spec.
Qed.

(** *** The pages together *)

Lemma totalPages_bounds (len size : Z) :
  0 ≤ len → 1 ≤ size →
  ∃ n, totalPages len size = Pages n ∧ (n - 1) * size < len ≤ n * size.
Proof.
  intros Hlen Hsize. unfold totalPages.
  destruct (Z.eqb_spec size 0) as [| _]; [lia |].
  eexists. split; [reflexivity |].
  pose proof (Z.div_mod (- len) size ltac:(lia)) as Hdiv.
  pose proof (Z.mod_pos_bound (- len) size ltac:(lia)) as Hmod.
  nia.
Qed.

Lemma pages_up_to (sorted : list item) (size : Z) (m : nat) :
  1 ≤ size →
  concat ((λ k : nat, paginatedData sorted (Z.of_nat k) size) <$> seq 1 m)
  = take (m * Z.to_nat size) sorted.
Proof.
  intros Hsize. induction m as [| m IH]; [reflexivity |].
  rewrite seq_S, fmap_app, concat_app, IH. cbn [fmap list_fmap concat].
  rewrite app_nil_r, DataTableFacts.paginatedData_window by lia.
  replace (Z.to_nat ((Z.of_nat (1 + m) - 1) * size))
    with (m * Z.to_nat size)%nat by nia.
  rewrite take_take_drop. f_equal. lia.
Qed.

(** With a page size of at least 1, the pages 1 to [totalPages], one after
    the other, are the sorted list: every record is on exactly one page. *)
Theorem pages_cover_sorted (sorted : list item) (size : Z) :
  1 ≤ size →
  ∃ n, totalPages (Z.of_nat (length sorted)) size = Pages n
       ∧ 0 ≤ n
       ∧ concat ((λ k : nat, paginatedData sorted (Z.of_nat k) size)
                   <$> seq 1 (Z.to_nat n))
         = sorted.
Proof.
  intros Hsize.
  destruct (totalPages_bounds (Z.of_nat (length sorted)) size)
    as (n & Hn & Hlow & Hhigh); [lia | lia |].
  exists n. split; [exact Hn |]. split; [nia |].
  rewrite pages_up_to by lia. apply take_ge. nia.
Qed.

(** *** The footer *)

(** With a page size of at least 1 and a page number of at least 1, the
    range the footer announces ("Showing from to to of n") counts the rows
    of the page; on a page past the end its "to" is below its "from". *)
Theorem footer_counts_page (p : Props) (st : State) (f : Footer) :
  1 ≤ pageSize_of p → 1 ≤ currentPage st →
  footer_of p st = Some f →
  Z.of_nat (length (page_of p st))
  = Z.max 0 (showing_to f - showing_from f + 1)
  ∧ showing_of f = Z.of_nat (length (sorted_of p st))
  ∧ showing_to f ≤ showing_of f.
Proof.
  intros Hsize Hpage. unfold footer_of. cbv zeta.
  destruct (more_than_one _); [| discriminate]. intros [= <-]. cbn.
  unfold page_of. rewrite DataTableFacts.paginatedData_window by lia.
  rewrite length_take, length_drop. repeat split; nia.
Qed.

(** *** The buttons stay within the pages *)

Lemma unfiltered_length (p : Props) (st : State) :
  searchQuery st = "" → length (sorted_of p st) = length (data p).
Proof.
  intros Hsearch. unfold sorted_of. rewrite Hsearch. cbn [filteredData String.eqb].
  destruct (sortConfig st) as [c |]; [| reflexivity].
  apply Permutation_length, JSFacts.sort_perm.
Qed.

Lemma handle_within_pages (p : Props) (st : State) (e : Event) :
  1 ≤ pageSize_of p → keeps_search e = true →
  within_pages p st → within_pages p (handle p st e).
Proof.
  intros Hsize He (Hsearch & Hpos & Hin). unfold within_pages.
  destruct e as [text | column | | | rowKey |]; try discriminate; cbn;
    try (repeat split; assumption).
  - destruct (sortable column); repeat split; assumption.
  - destruct (footer_of p st) as [f |] eqn:Ef; [| repeat split; assumption].
    rewrite (DataTableFacts.footer_shows_current_page p st f Ef).
    unfold Pagination_prev.
    destruct (Z.eqb_spec (currentPage st) 1); cbn; repeat split;
      (assumption || nia).
  - destruct (footer_of p st) as [f |] eqn:Ef; [| repeat split; assumption].
    rewrite (DataTableFacts.footer_shows_current_page p st f Ef).
    assert (Htotal : shown_pages f
              = totalPages (Z.of_nat (length (data p))) (pageSize_of p)).
    { revert Ef. unfold footer_of. cbv zeta.
      destruct (more_than_one _); [| discriminate]. intros [= <-]. cbn.
      now rewrite unfiltered_length. }
    assert (Hmore : more_than_one (shown_pages f) = true).
    { revert Ef. unfold footer_of. cbv zeta.
      destruct (more_than_one _) eqn:E; [| discriminate].
      now intros [= <-]. }
    rewrite Htotal in Hmore |- *.
    destruct (totalPages_bounds (Z.of_nat (length (data p))) (pageSize_of p))
      as (n & Hn & Hlow & Hhigh); [lia | lia |].
    rewrite Hn in Hmore |- *. cbn in Hmore. apply Z.ltb_lt in Hmore.
    unfold Pagination_next, page_is.
    destruct (Z.eqb_spec (currentPage st) n); cbn;
      [repeat split; assumption |].
    repeat split; [assumption | lia |].
    assert (currentPage st < n) by nia. nia.
Qed.

(** Under fixed props with a page size of at least 1, a run of header
    clicks, page buttons and row menus that leaves the search text empty
    never leads past the last page: the page shown holds a record whenever
    the data holds one. *)
Theorem buttons_stay_within_pages (p : Props) (events : list Event) :
  1 ≤ pageSize_of p →
  Forall (λ e, keeps_search e = true) events →
  let st := after_events p events in
  (currentPage st - 1) * pageSize_of p
  < Z.max 1 (Z.of_nat (length (sorted_of p st)))
  ∧ (data p ≠ [] → ∃ i rest, page_of p st = i :: rest).
Proof.
  intros Hsize Hevents.
  assert (Hwithin : within_pages p (after_events p events)).
  { unfold after_events, after.
    assert (Hinit : within_pages p initial) by (repeat split; cbn; lia).
    revert Hinit. generalize initial.
    induction Hevents as [| e events He _ IH]; intros st Hst; [exact Hst |].
    cbn. apply IH. now apply handle_within_pages. }
  destruct Hwithin as (Hsearch & Hpos & Hin). cbv zeta.
  rewrite (unfiltered_length p _ Hsearch). split; [exact Hin |].
  intros Hdata. unfold page_of.
  rewrite DataTableFacts.paginatedData_window by lia.
  assert (Hlen : (0 < length (take (Z.to_nat (pageSize_of p))
                      (drop (Z.to_nat ((currentPage (after_events p events) - 1)
                                       * pageSize_of p))
                         (sorted_of p (after_events p events)))))%nat).
  { rewrite length_take, length_drop, (unfiltered_length p _ Hsearch).
    destruct (data p); [congruence |]. cbn [length] in *. nia. }
  destruct (take _ _) as [| i rest]; [cbn in Hlen; lia | eauto].
Qed.

(** *** A search text that contains another *)

Lemma includes_included (s t u : string) :
  JS.includes s t = true → JS.includes t u = true → JS.includes s u = true.
Proof.
  rewrite !JSFacts.includes_spec.
  intros (b1 & a1 & ->) (b2 & a2 & ->).
  exists (b1 +:+ b2), (a2 +:+ a1).
  now rewrite !TextFacts.append_assoc.
Qed.

Lemma filter_narrows {A} (f g : A → bool) (l : list A) :
  (∀ x, f x = true → g x = true) →
  List.filter f l `sublist_of` List.filter g l.
Proof.
  intros Himpl. induction l as [| x l IH]; cbn; [constructor |].
  destruct (f x) eqn:Ef.
  - rewrite (Himpl x Ef). now constructor.
  - destruct (g x); [now constructor | exact IH].
Qed.

(** A search text whose lower-cased form contains that of another keeps a
    part of what the other keeps, in the same order: entering a longer text
    never brings a record back. *)
Theorem longer_search_narrows
    (data : list item) (columns : list Column) (text longer : string) :
  longer ≠ "" →
  JS.includes (toLowerCase longer) (toLowerCase text) = true →
  filteredData data columns longer
  `sublist_of` filteredData data columns text.
Proof.
  intros Hlonger Hin. unfold filteredData.
  apply String.eqb_neq in Hlonger. rewrite Hlonger.
  destruct (String.eqb text ""); [apply DataTableFacts.filter_sublist |].
  apply filter_narrows. intros i. rewrite !existsb_exists.
  intros (column & Hcolumn & Hmatch). exists column. split; [exact Hcolumn |].
  revert Hmatch. unfold column_matches. cbv zeta.
  destruct (JS.nullish _); [discriminate |].
  intros Hmatch. exact (includes_included _ _ _ Hmatch Hin).
Qed.

(** *** A sort column no record has *)

Lemma filter_all {A} (f : A → bool) (l : list A) :
  Forall (λ x, f x = true) l → List.filter f l = l.
Proof.
  induction 1 as [| x l Hx _ IH]; cbn; [reflexivity |].
  now rewrite Hx, IH.
Qed.

(** When no record holds a value under the sort key, sorting orders
    nothing: the list stays as it is on a host that hands the inserted
    record to the comparator first, and is reversed on the other hosts,
    for either direction. *)
Theorem sort_by_absent_key (filtered : list item) (c : SortConfig) :
  Forall (λ i, missing (sort_key c) i = true) filtered →
  sortedData filtered (Some c)
  = match sort_calls with
    | LaterFirst => filtered
    | EarlierFirst => rev filtered
    end.
Proof.
  intros Hall.
  assert (Hsorted : Forall (λ i, missing (sort_key c) i = true)
                      (sortedData filtered (Some c))).
  { cbn [sortedData]. now rewrite JSFacts.sort_perm. }
  rewrite <- (filter_all _ _ Hsorted). cbn [sortedData]. destruct sort_calls.
  - rewrite <- (filter_all _ _ Hall) at 2.
    apply JSFacts.sort_keeps_order_within. intros x y Hx _. cbn.
    now rewrite (DataTableFacts.compare_missing_first c x y Hx).
  - rewrite <- (filter_all _ _ Hall) at 2.
    apply JSFacts.sort_missing_reversed.
    + apply DataTableFacts.missing_stays.
    + apply DataTableFacts.value_passes.
    + intros x y _ Hy. cbn.
      now rewrite (DataTableFacts.compare_missing_first c y x Hy).
Qed.

(** *** A page past the end of a short list *)

(** When the sorted list fits on one page while the current page is a later
    one, the page is empty and the placeholder stands in place of the
    records, however many there are; no footer and no page button is
    drawn, and the handlers of the two buttons leave the state as it is. *)
Theorem short_list_on_later_page (p : Props) (st : State) :
  1 ≤ pageSize_of p → 2 ≤ currentPage st →
  Z.of_nat (length (sorted_of p st)) ≤ pageSize_of p →
  page_of p st = []
  ∧ footer_of p st = None
  ∧ handle p st PreviousPage = st
  ∧ handle p st NextPage = st
  ∧ (isLoading_of p = false →
     render_view p st
     = Table (EmptyState (emptyTitle_of p) (emptyDescription_of p)) None).
Proof.
  intros Hsize Hpage Hshort.
  assert (Hempty : page_of p st = []).
  { unfold page_of, paginatedData. apply JSFacts.slice_past_the_end. nia. }
  assert (Hfooter : footer_of p st = None).
  { unfold footer_of. cbv zeta.
    destruct (totalPages_bounds (Z.of_nat (length (sorted_of p st)))
                (pageSize_of p)) as (n & -> & Hlow & Hhigh); [lia | lia |].
    cbn. destruct (Z.ltb_spec 1 n); [nia | reflexivity]. }
  repeat split; try assumption.
  - cbn. now rewrite Hfooter.
  - cbn. now rewrite Hfooter.
  - intros Hloaded. unfold render_view. now rewrite Hloaded, Hempty, Hfooter.
Qed.

(** *** What a plain cell shows and what the search reads *)

(** In a column without a renderer, the text of a cell that holds a value
    is the text the search looks into; a cell without a value shows a dash,
    and no search text finds the record through it. *)
Theorem plain_cell_is_searched (text : string) (i : item) (column : Column) :
  render column = None →
  (missing (key column) i = false →
   column_matches text i column
   = JS.includes (toLowerCase (cell column i)) (toLowerCase text))
  ∧ (missing (key column) i = true →
     cell column i = "-" ∧ column_matches text i column = false).
Proof.
  intros Hplain. unfold missing, cell, column_matches, JS.coalesce.
  rewrite Hplain. cbv zeta.
  split; intros ->; [reflexivity | split; reflexivity].
Qed.

End WithHost.
End TableFacts.

(** ** The menu of a row *)
Module RowMenuFacts.
Import DataTable RowMenu.

Lemma submseteq_NoDup {A} (l k : list A) : l ⊆+ k → NoDup k → NoDup l.
Proof.
  intros (m & Hperm & Hsub)%submseteq_sublist_r Hk.
  rewrite Hperm. now apply (sublist_NoDup m k).
Qed.

Section ByKey.
Context {A : Type} (f : A → string).

Lemma none_has_key (k : string) (l : list A) :
  k ∉ f <$> l →
  List.filter (λ j, bool_decide (Some k = Some (f j))) l = [].
Proof.
  induction l as [| j l IH]; [reflexivity |].
  rewrite fmap_cons, not_elem_of_cons. intros [Hne Hnot]. cbn.
  rewrite bool_decide_false by congruence. auto.
Qed.

Lemma one_has_key (i : A) (l : list A) :
  NoDup (f <$> l) → i ∈ l →
  List.filter (λ j, bool_decide (Some (f i) = Some (f j))) l = [i].
Proof.
  induction l as [| j l IH]; [intros _ []%elem_of_nil |].
  rewrite fmap_cons, NoDup_cons. intros [Hfresh Hl].
  intros [-> | Hin]%elem_of_cons; cbn.
  - rewrite bool_decide_true by reflexivity. f_equal.
    now apply none_has_key.
  - rewrite bool_decide_false; [now apply IH |].
    intros [= Heq]. apply Hfresh. rewrite <- Heq.
    now apply list_elem_of_fmap_2.
Qed.

Lemma at_most_one_has_key (k : option string) (l : list A) :
  NoDup (f <$> l) →
  (length (List.filter (λ j, bool_decide (k = Some (f j))) l) ≤ 1)%nat.
Proof.
  destruct k as [k |]; [| intros _; induction l; cbn; [lia | assumption]].
  induction l as [| j l IH]; [cbn; lia |].
  rewrite fmap_cons, NoDup_cons. intros [Hfresh Hl]. cbn.
  destruct (bool_decide_reflect (Some k = Some (f j))) as [[= ->] |].
  - rewrite none_has_key by exact Hfresh. cbn. lia.
  - now apply IH.
Qed.
End ByKey.

Section WithHost.
Context `{Host}.

Lemma page_keys_NoDup (p : Props) (st : State) :
  NoDup (keyExtractor p <$> data p) →
  NoDup (keyExtractor p <$> page_of p st).
Proof.
  apply submseteq_NoDup, fmap_submseteq.
  apply TableFacts.page_rows_from_data.
Qed.

(** When the key extractor tells the records of the data apart, no page
    shows the menu of more than one row; and a click on the menu button of a
    row of the page leaves the menu of that row alone showing, or none if it
    was showing already. *)
Theorem one_menu_at_most (p : Props) (st : State) :
  NoDup (keyExtractor p <$> data p) →
  (length (open_menus p st) ≤ 1)%nat
  ∧ ∀ i, hasActions p = true → i ∈ page_of p st →
      open_menus p (handle p st (RowMenu (keyExtractor p i)))
      = if menu_open p st i then [] else [i].
Proof.
  intros Hkeys. pose proof (page_keys_NoDup p st Hkeys) as Hpage. split.
  - unfold open_menus. destruct (hasActions p); [| cbn; lia].
    now apply at_most_one_has_key.
  - intros i Hactions Hi. unfold open_menus, menu_open. rewrite Hactions.
    change (page_of p (handle p st (RowMenu (keyExtractor p i))))
      with (page_of p st).
    cbn [handle openDropdown].
    destruct (bool_decide (openDropdown st = Some (keyExtractor p i))).
    + clear. induction (page_of p st) as [| j l IH]; [reflexivity |].
      cbn. rewrite bool_decide_false by discriminate. exact IH.
    + now apply (one_has_key (keyExtractor p)).
Qed.

End WithHost.
End RowMenuFacts.

(** ** Labels and badges *)
Module LabelFacts.
Import Dashboard Labels.

(** The cell of a status or type column reads as the option of the form's
    select for the same value does: for every loan status, property type
    and property status, the value with the label the cell computes is one
    of the options. *)
Theorem cell_label_is_option_label :
  (∀ s, (LoanStatus_text s, cell_label (LoanStatus_text s))
        ∈ loan_statusOptions)
  ∧ (∀ t, (PropertyType_text t, cell_label (PropertyType_text t))
          ∈ propertyTypeOptions)
  ∧ (∀ s, (PropertyStatus_text s, cell_label (PropertyStatus_text s))
          ∈ property_statusOptions).
Proof.
  repeat split; intros []; apply (bool_decide_unpack _); vm_compute; exact I.
Qed.

(** The badge of an application on the dashboard has the colour of its
    badge on the applications page for exactly three statuses: under
    review, approved and denied. *)
Theorem badges_agree_on_three (s : LoanStatus) :
  dashboard_variant s = loan_getStatusVariant s
  ↔ s ∈ [UnderReview; Approved; Denied].
Proof.
  destruct s; cbn; split; intros Hs; try discriminate; try reflexivity;
    try (apply (bool_decide_unpack _); vm_compute; exact I);
    apply (bool_decide_pack _) in Hs; vm_compute in Hs; destruct Hs.
Qed.

Lemma solid_cons (c : ascii) (s : string) :
  Text.solid (String c s)
  = if Text.is_space c then Text.solid s else c :: Text.solid s.
Proof. unfold Text.solid. cbn. now destruct (Text.is_space c). Qed.

Lemma solid_space_capitals (s : string) :
  Text.solid (Text.space_capitals s) = Text.solid s.
Proof.
  induction s as [| c s IH]; [reflexivity |]. cbn [Text.space_capitals].
  destruct (Text.is_capital c); rewrite !solid_cons, IH; reflexivity.
Qed.

Lemma solid_trimStart (s : string) : Text.solid (Text.trimStart s) = Text.solid s.
Proof.
  induction s as [| c s IH]; [reflexivity |]. cbn [Text.trimStart].
  destruct (Text.is_space c) eqn:Ec; [| reflexivity].
  now rewrite solid_cons, Ec.
Qed.

Lemma solid_trimEnd (s : string) : Text.solid (Text.trimEnd s) = Text.solid s.
Proof.
  induction s as [| c s IH]; [reflexivity |]. cbn [Text.trimEnd].
  rewrite solid_cons, <- IH.
  destruct (Text.trimEnd s) as [| d kept].
  - destruct (Text.is_space c) eqn:Ec; [reflexivity |].
    now rewrite solid_cons, Ec.
  - now rewrite (solid_cons c).
Qed.

Lemma trimStart_head (s : string) (c : ascii) :
  head (Text.units (Text.trimStart s)) = Some c → Text.is_space c = false.
Proof.
  induction s as [| d s IH]; [discriminate |]. cbn [Text.trimStart].
  destruct (Text.is_space d) eqn:Ed; [exact IH |].
  cbn. now intros [= <-].
Qed.

Lemma trimEnd_head (s : string) (c : ascii) :
  Text.is_space c = false →
  head (Text.units s) = Some c → head (Text.units (Text.trimEnd s)) = Some c.
Proof.
  destruct s as [| d s]; [discriminate |]. cbn. intros Hc [= ->].
  destruct (Text.trimEnd s); [now rewrite Hc | reflexivity].
Qed.

Lemma trimEnd_last (s : string) (c : ascii) :
  last (Text.units (Text.trimEnd s)) = Some c → Text.is_space c = false.
Proof.
  induction s as [| d s IH]; [discriminate |]. cbn [Text.trimEnd].
  destruct (Text.trimEnd s) as [| e kept].
  - destruct (Text.is_space d) eqn:Ed; [discriminate |].
    cbn. now intros [= <-].
  - exact IH.
Qed.

(** The label of a cell holds the code units of the value, in their order,
    and besides them nothing but white space; it neither begins nor ends
    with white space. *)
Theorem cell_label_adds_spaces_only (value : string) :
  Text.solid (cell_label value) = Text.solid value
  ∧ (∀ c, head (Text.units (cell_label value)) = Some c →
          Text.is_space c = false)
  ∧ (∀ c, last (Text.units (cell_label value)) = Some c →
          Text.is_space c = false).
Proof.
  unfold cell_label, Text.trim. repeat split.
  - now rewrite solid_trimEnd, solid_trimStart, solid_space_capitals.
  - intros c Hc.
    destruct (Text.trimStart (Text.space_capitals value)) as [| d t] eqn:E;
      [discriminate |].
    assert (Hd : Text.is_space d = false)
      by (apply (trimStart_head (Text.space_capitals value)); now rewrite E).
    rewrite (trimEnd_head (String d t) d Hd eq_refl) in Hc. congruence.
  - apply trimEnd_last.
Qed.

End LabelFacts.

(** ** Names looked up by id *)
Module LookupFacts.
Import Dashboard Lookup.

Lemma has_space_append (s t : string) :
  Text.has_space (s +:+ " " +:+ t) = true.
Proof.
  induction s as [| c s IH]; [reflexivity |].
  rewrite JSFacts.append_cons. cbn. rewrite IH. apply orb_true_r.
Qed.

Lemma customer_label_known (c : Customer) : customer_label c ≠ "Unknown".
Proof.
  intros Heq. pose proof (has_space_append (firstName c) (lastName c)) as Hs.
  unfold customer_label in Heq. rewrite Heq in Hs. discriminate.
Qed.

Lemma find_by_id {A} (id_of : A → string) (l : list A) (k : string) :
  match List.find (λ x, String.eqb (id_of x) k) l with
  | Some x => x ∈ l ∧ id_of x = k
  | None => ∀ x, x ∈ l → id_of x ≠ k
  end.
Proof.
  induction l as [| y l IH]; cbn; [intros x []%elem_of_nil |].
  destruct (String.eqb_spec (id_of y) k) as [Heq | Hne].
  - split; [apply list_elem_of_here | exact Heq].
  - destruct (List.find _ l) as [x |].
    + destruct IH. split; [now apply list_elem_of_further | assumption].
    + intros x [-> | Hx]%elem_of_cons; auto.
Qed.

Lemma find_unique {A} (id_of : A → string) (l : list A) (x : A) :
  NoDup (id_of <$> l) → x ∈ l →
  List.find (λ y, String.eqb (id_of y) (id_of x)) l = Some x.
Proof.
  induction l as [| y l IH]; [intros _ []%elem_of_nil |].
  rewrite fmap_cons, NoDup_cons. intros [Hfresh Hl] Hx. cbn.
  destruct (String.eqb_spec (id_of y) (id_of x)) as [Heq | Hne].
  - apply elem_of_cons in Hx as [-> | Hx]; [reflexivity |].
    destruct Hfresh. rewrite Heq. now apply list_elem_of_fmap_2.
  - apply elem_of_cons in Hx as [-> | Hx]; [congruence | auto].
Qed.

(** The name shown for a customer id is "Unknown" exactly when no customer
    has the id; when the ids of the customers differ from one another, the
    name shown for the id of each option of the form's select is the label
    of that option, and likewise a property's address is found under its
    id. *)
Theorem names_by_id (customers : list Customer) (properties : list Property) :
  (∀ k, getCustomerName customers k = "Unknown"
        ↔ ∀ c, c ∈ customers → customer_id c ≠ k)
  ∧ (NoDup (customer_id <$> customers) →
     Forall (λ option, getCustomerName customers (fst option) = snd option)
       (tail (customerOptions customers)))
  ∧ (∀ k, (∀ p, p ∈ properties → property_id p ≠ k) →
          getPropertyAddress properties k = "Unknown")
  ∧ (NoDup (property_id <$> properties) →
     ∀ p, p ∈ properties →
       getPropertyAddress properties (property_id p) = address p).
Proof.
  repeat split.
  - unfold getCustomerName.
    pose proof (find_by_id customer_id customers k) as Hfind.
    destruct (List.find _ customers) as [c |]; [| intros _; exact Hfind].
    intros Heq. now destruct (customer_label_known c).
  - intros Hnone. unfold getCustomerName.
    pose proof (find_by_id customer_id customers k) as Hfind.
    destruct (List.find _ customers) as [c |]; [| reflexivity].
    destruct Hfind as [Hc Hk]. now destruct (Hnone c Hc).
  - intros Hids. cbn [customerOptions tail].
    apply Forall_forall. intros option.
    rewrite list_elem_of_In, in_map_iff.
    intros (c & <- & Hc%list_elem_of_In). cbn [fst snd].
    unfold getCustomerName. now rewrite (find_unique customer_id).
  - intros k Hnone. unfold getPropertyAddress.
    pose proof (find_by_id property_id properties k) as Hfind.
    destruct (List.find _ properties) as [p |]; [| reflexivity].
    destruct Hfind as [Hp Hk]. now destruct (Hnone p Hp).
  - intros Hids p Hp. unfold getPropertyAddress.
    now rewrite (find_unique property_id).
Qed.

End LookupFacts.

(** ** The customers page *)
Module CustomersFacts.
Import DataTable Dashboard Customers.

Lemma to_item_get (c : Customer) :
  get (to_item c) "name" = JUndefined
  ∧ get (to_item c) "phone" = JStr (phone c)
  ∧ get (to_item c) "dateOfBirth" = JStr (dateOfBirth c)
  ∧ get (to_item c) "createdAt" = JStr (customer_createdAt c).
Proof.
  unfold to_item, with_optional, get.
  destruct (socialSecurityNumber c), (customer_updatedAt c);
    repeat split; reflexivity.
Qed.

Section WithHost.
Context `{Host}.

Lemma filter_fmap {A B} (f : B → bool) (g : A → B) (l : list A) :
  List.filter f (g <$> l) = g <$> List.filter (λ x, f (g x)) l.
Proof.
  induction l as [| x l IH]; [reflexivity |]. cbn.
  destruct (f (g x)); cbn; now rewrite IH.
Qed.

(** No customer has a field under the key of the "Name" column.  So a
    click on the header of that column, which is sortable, orders nothing:
    the customers stay as they are, or come out reversed, depending on the
    host. *)
Theorem name_column_orders_nothing
    (customers : list Customer) (d : direction) :
  sortedData (to_item <$> customers)
    (Some {| sort_key := "name"; sort_direction := d |})
  = match sort_calls with
    | LaterFirst => to_item <$> customers
    | EarlierFirst => rev (to_item <$> customers)
    end.
Proof.
  apply TableFacts.sort_by_absent_key. apply Forall_fmap, Forall_forall.
  intros c _. cbn. unfold missing.
  now destruct (to_item_get c) as (-> & _).
Qed.

(** A search on the customers page looks into the phone number, the date
    of birth and the creation date as they are stored, and into nothing
    else: not into the names and not into the e-mail address the first
    column shows. *)
Theorem search_skips_names
    (customers : list Customer) (text : string)
    (name_cell dateOfBirth_cell createdAt_cell : item → string) :
  text ≠ "" →
  filteredData (to_item <$> customers)
    (columns name_cell dateOfBirth_cell createdAt_cell) text
  = to_item <$> List.filter (found text) customers.
Proof.
  intros Htext. unfold filteredData.
  apply String.eqb_neq in Htext. rewrite Htext, filter_fmap. f_equal.
  apply filter_ext. intros c. unfold columns, found, column_matches.
  cbn [existsb key].
  destruct (to_item_get c) as (-> & -> & -> & ->). cbn.
  now rewrite orb_false_r, orb_assoc.
Qed.

End WithHost.

(** *** The form's default values *)

Lemma split_head_spec (sep : ascii) (s : string) :
  (sep ∉ Text.units (Text.split_head sep s))
  ∧ (sep ∉ Text.units s → Text.split_head sep s = s)
  ∧ ∀ head rest, sep ∉ Text.units head →
      Text.split_head sep (head +:+ String sep rest) = head.
Proof.
  repeat split.
  - induction s as [| c s IH]; cbn [Text.split_head Text.units];
      [apply not_elem_of_nil |].
    destruct (Ascii.eqb_spec c sep); cbn [Text.units];
      [apply not_elem_of_nil |].
    apply not_elem_of_cons. auto.
  - induction s as [| c s IH]; cbn [Text.split_head Text.units];
      [reflexivity |].
    rewrite not_elem_of_cons. intros [Hne Hs].
    destruct (Ascii.eqb_spec c sep); [congruence | now rewrite IH].
  - intros head rest. induction head as [| c head IH].
    + intros _. change ("" +:+ String sep rest) with (String sep rest).
      cbn [Text.split_head]. now rewrite Ascii.eqb_refl.
    + cbn [Text.units]. rewrite not_elem_of_cons. intros [Hne Hhead].
      rewrite JSFacts.append_cons. cbn [Text.split_head].
      destruct (Ascii.eqb_spec c sep); [congruence | now rewrite IH].
Qed.

(** The date of birth the edit form starts from is the stored one up to
    its first "T": a stored date with a time of day gives the date alone,
    one without a "T" is taken as it is, and the result never holds a "T".
    A customer without a social security number gets the empty text. *)
Theorem edit_form_defaults (c : Customer) :
  ∃ values,
    defaultValues (Some c) = Some values
    ∧ (∃ date, values !! "dateOfBirth" = Some (JStr date)
         ∧ ("T"%char ∉ Text.units date)
         ∧ ("T"%char ∉ Text.units (dateOfBirth c) → date = dateOfBirth c)
         ∧ ∀ day time, "T"%char ∉ Text.units day →
             dateOfBirth c = day +:+ String "T" time → date = day)
    ∧ (socialSecurityNumber c = None →
       values !! "socialSecurityNumber" = Some (JStr ""))
    ∧ (∀ s, socialSecurityNumber c = Some s →
       values !! "socialSecurityNumber" = Some (JStr s)).
Proof.
  eexists. split; [reflexivity |]. repeat split.
  - eexists. split; [reflexivity |].
    destruct (split_head_spec "T" (dateOfBirth c)) as (Hno & Hsame & Hcut).
    repeat split; [exact Hno | exact Hsame |].
    intros day time Hday ->. now apply Hcut.
  - intros ->. reflexivity.
  - intros s ->. cbn. unfold JS.or. cbn.
    destruct s; reflexivity.
Qed.

End CustomersFacts.

(** ** The sidebar and the routes *)
Module LayoutFacts.
Import Layout.

Lemma isActive_inv (pathname href : string) :
  isActive pathname href = true →
  ∃ rest, pathname = href +:+ rest ∧ (href = "/" → rest = "").
Proof.
  unfold isActive, Text.startsWith. rewrite orb_true_iff, andb_true_iff.
  intros [Heq%String.eqb_eq | [Hroot Hprefix]].
  - exists "". now rewrite TextFacts.append_nil_r.
  - apply JSFacts.prefix_spec in Hprefix as [rest ->]. exists rest.
    split; [reflexivity |]. intros ->. discriminate.
Qed.

Lemma isActive_below (href tail : string) :
  href ≠ "/" → isActive (href +:+ tail) href = true.
Proof.
  intros Hne. unfold isActive, Text.startsWith.
  apply String.eqb_neq in Hne. rewrite Hne. cbn.
  apply orb_true_iff. right. apply JSFacts.prefix_spec. eauto.
Qed.

(** At every path at most one entry of the sidebar is highlighted; at the
    target of an entry, and below it unless the target is the root, that
    entry is the one. *)
Theorem one_entry_active :
  (∀ pathname, (length (active pathname) ≤ 1)%nat)
  ∧ (∀ entry, entry ∈ navigation → active (snd entry) = [entry])
  ∧ (∀ entry tail, entry ∈ navigation → snd entry ≠ "/" →
       active (snd entry +:+ tail) = [entry]).
Proof.
  assert (Hone : ∀ pathname, (length (active pathname) ≤ 1)%nat).
  { intros pathname. unfold active, navigation. cbn [List.filter snd].
    destruct (isActive pathname "/") eqn:E1,
             (isActive pathname "/customers") eqn:E2,
             (isActive pathname "/properties") eqn:E3,
             (isActive pathname "/loans") eqn:E4; cbn [length]; try lia;
      exfalso;
      repeat match goal with
      | H : isActive _ _ = true |- _ =>
          apply isActive_inv in H as (? & ? & ?)
      end;
      subst;
      repeat match goal with
      | H : "/" = "/" → _ |- _ => specialize (H eq_refl); subst
      | H : _ = _ +:+ _ |- _ =>
          repeat rewrite JSFacts.append_cons in H;
          first [discriminate H | injection H as H]
      end. }
  assert (Hbelow : ∀ entry tail, entry ∈ navigation → snd entry ≠ "/" →
            active (snd entry +:+ tail) = [entry]).
  { intros entry tail Hin Hroot.
    pose proof (Hone (snd entry +:+ tail)) as Hlen.
    pose proof (isActive_below (snd entry) tail Hroot) as Hactive.
    assert (Hmember : In entry (active (snd entry +:+ tail))).
    { apply filter_In. split; [now apply list_elem_of_In | exact Hactive]. }
    destruct (active _) as [| first [| second others]];
      [destruct Hmember | | cbn in Hlen; lia].
    destruct Hmember as [-> | []]. reflexivity. }
  repeat split; [exact Hone | | exact Hbelow].
  intros entry Hin. destruct (String.eqb_spec (snd entry) "/") as [Heq | Hne].
  - unfold navigation in Hin.
    repeat (apply elem_of_cons in Hin as [-> | Hin]); try discriminate;
      [reflexivity | now apply elem_of_nil in Hin].
  - rewrite <- (TextFacts.append_nil_r (snd entry)) at 1. now apply Hbelow.
Qed.

(** The targets of the sidebar are the paths of the routes, and every link
    of the dashboard leads to a route. *)
Theorem links_lead_to_routes :
  (∀ href, href ∈ snd <$> navigation ↔ href ∈ routes)
  ∧ Forall (λ href, href ∈ routes) dashboard_links.
Proof.
  split.
  - intros href. unfold routes, child_paths, navigation.
    cbn [fmap list_fmap map snd].
    split; intros Hin;
      repeat (apply elem_of_cons in Hin as [-> | Hin]);
      try (now apply elem_of_nil in Hin);
      apply (bool_decide_unpack _); vm_compute; exact I.
  - apply (bool_decide_unpack _). vm_compute. exact I.
Qed.

End LayoutFacts.

(** ** The gateway calls *)
Module ApiFacts.
Import Pages Api.

Lemma path_inj (s1 s2 : Service) : path s1 = path s2 → s1 = s2.
Proof. destruct s1, s2; (reflexivity || discriminate). Qed.

Section WithHost.
Context `{Host}.

(** The address of a service is the text of its environment variable
    followed by its path; when the variable is not set, that text is
    "undefined" and the address a relative one.  Two records of a service
    with different text ids have different addresses, and two services that
    share a base have different collection addresses. *)
Theorem endpoints (env : Env) :
  (∀ s, env !! variable s = None → API_BASE env s = "undefined" +:+ path s)
  ∧ (∀ s base, env !! variable s = Some base →
       API_BASE env s = base +:+ path s)
  ∧ (∀ s a b, item_url env s (JStr a) = item_url env s (JStr b) → a = b)
  ∧ (∀ s1 s2, env !! variable s1 = env !! variable s2 →
       API_BASE env s1 = API_BASE env s2 → s1 = s2).
Proof.
  repeat split.
  - intros s Hunset. unfold API_BASE, env_value. now rewrite Hunset.
  - intros s base Hset. unfold API_BASE, env_value. now rewrite Hset.
  - intros s a b. unfold item_url. cbn [JS.ToString].
    intros Heq. apply String.app_inj in Heq.
    rewrite !JSFacts.append_cons in Heq. now injection Heq.
  - intros s1 s2 Hbase. unfold API_BASE, env_value. rewrite Hbase.
    intros Heq. apply String.app_inj in Heq. now apply path_inj.
Qed.

End WithHost.
End ApiFacts.

(** ** From a row of the table to the gateway *)
Module ControllerFacts.
Import Pages Controller.

Section WithHost.
Context `{Host}.

(** "Delete" in the menu of a row closes the menu and opens the dialog for
    that row; confirming asks the gateway to delete the record with the id
    of the row.  When the call succeeds the dialog is closed and a second
    confirmation has nothing to send; when it fails the dialog stays and
    confirming sends the same request again.  Without a record chosen,
    confirming sends nothing. *)
Theorem delete_addresses_its_row
    (props : DataTable.Props) (env : Api.Env) (p : Page) (r : entity)
    (screen : DataTable.State * World) :
  let screen' := click_entry props Delete r screen in
  let request :=
    {| Api.method := Api.DELETE;
       Api.url := Api.API_BASE env (service p) +:+ "/"
                  +:+ JS.ToString (DataTable.get r "id");
       Api.body := None |} in
  DataTable.openDropdown (fst screen') = None
  ∧ is_open deleteMutation (snd screen') = true
  ∧ onConfirm env p (snd screen') = Some request
  ∧ onConfirm env p (settle p deleteMutation Fulfilled (snd screen')) = None
  ∧ onConfirm env p (settle p deleteMutation Rejected (snd screen'))
    = Some request
  ∧ (∀ w, deleting (modals w) = None → onConfirm env p w = None).
Proof.
  cbn. repeat split. intros w Hnone. unfold onConfirm. now rewrite Hnone.
Qed.

(** Submitting the edit form asks the gateway to replace the record being
    edited: the address ends in the id of that record and the body holds the
    fields of the form and, as long as the form has no field named "id",
    that same id; a field "id" of the form would take its place in the
    body. *)
Theorem update_addresses_edited_record
    (env : Api.Env) (p : Page) (r data : entity) (w : World) :
  editing (modals w) = Some r →
  ∃ sent,
    onSubmit_edit env p data w
    = Some {| Api.method := Api.PUT;
              Api.url := Api.item_url env (service p) (DataTable.get r "id");
              Api.body := Some sent |}
    ∧ (∀ k v, data !! k = Some v → sent !! k = Some v)
    ∧ (data !! "id" = None → sent !! "id" = Some (DataTable.get r "id"))
    ∧ (∀ k, k ≠ "id" → sent !! k = data !! k).
Proof.
  intros Hedit. unfold onSubmit_edit. rewrite Hedit.
  eexists. split; [reflexivity |]. unfold update_body. repeat split.
  - intros k v Hk. now apply lookup_union_Some_l.
  - intros Hnone. rewrite lookup_union_r by exact Hnone.
    apply lookup_singleton_eq.
  - intros k Hk. rewrite lookup_union_l; [reflexivity |].
    now apply lookup_singleton_ne.
Qed.

End WithHost.
End ControllerFacts.

(** ** The dashboard: the alert and the recent applications *)
Module DashboardMoreFacts.
Import Dashboard DashboardAlert.

(** The alert is shown exactly when some application is submitted or under
    review, and the number it names is at most the number of
    applications. *)
Theorem alert_iff_pending (applications : list LoanApplication) :
  (alert_shown applications = true
   ↔ ∃ a, a ∈ applications ∧ (status a = Submitted ∨ status a = UnderReview))
  ∧ (pendingReview applications ≤ length applications)%nat.
Proof.
  unfold alert_shown, pendingReview. split.
  - rewrite Nat.ltb_lt. split.
    + intros Hpos.
      destruct (List.filter _ applications) as [| a rest] eqn:Efilter;
        [cbn in Hpos; lia |].
      assert (Hin : In a (List.filter (λ a, is_pending (status a))
                            applications))
        by (rewrite Efilter; now left).
      apply filter_In in Hin as [Hin Hpending]. exists a.
      split; [now apply list_elem_of_In |].
      rewrite DashboardFacts.is_pending_spec in Hpending.
      now apply bool_decide_eq_true in Hpending.
    + intros (a & Hin & Hpending).
      assert (Hkept : In a (List.filter (λ a, is_pending (status a))
                              applications)).
      { apply filter_In. split; [now apply list_elem_of_In |].
        rewrite DashboardFacts.is_pending_spec. now apply bool_decide_eq_true. }
      destruct (List.filter _ applications); [destruct Hkept | cbn; lia].
  - apply List.filter_length_le.
Qed.

Section WithHost.
Context `{Host}.

(** Whatever the creation dates are, valid or not, the recent applications
    are applications of the list, none more often than the list holds it;
    there are five of them, or all when the list has fewer. *)
Theorem recentApps_from_applications (applications : list LoanApplication) :
  recentApps applications ⊆+ applications
  ∧ length (recentApps applications) = Nat.min 5 (length applications)
  ∧ ((length applications ≤ 5)%nat → recentApps applications ≡ₚ applications).
Proof.
  unfold recentApps. rewrite JSFacts.slice_from_start by lia.
  change (Z.to_nat 5) with 5%nat.
  pose proof (JSFacts.sort_perm sort_calls newest_first applications) as Hperm.
  repeat split.
  - rewrite <- Hperm at 2. apply sublist_submseteq, sublist_take.
  - rewrite length_take, (Permutation_length Hperm). reflexivity.
  - intros Hfew. rewrite take_ge; [exact Hperm |].
    now rewrite (Permutation_length Hperm).
Qed.

End WithHost.
End DashboardMoreFacts.

(** ** The payment estimate of a loan without principal *)
Module EstimateFacts.
Import LoanForm.

Lemma eqb_zero (x : float) :
  (x =? 0)%float = true ↔ ∃ s, Prim2SF x = S754_zero s.
Proof.
  rewrite FloatAxioms.eqb_spec. change (Prim2SF 0) with (S754_zero false).
  unfold SFeqb. destruct (Prim2SF x) as [s | s | | s m e]; cbn.
  - split; eauto.
  - split; [destruct s; discriminate | intros [? [=]]].
  - split; [discriminate | intros [? [=]]].
  - split; [destruct s; discriminate | intros [? [=]]].
Qed.

Lemma is_nan_spec (x : float) : is_nan x = true ↔ Prim2SF x = S754_nan.
Proof.
  unfold is_nan. rewrite FloatAxioms.eqb_spec. unfold SFeqb.
  destruct (Prim2SF x) as [s | s | | s m e] eqn:E; cbn.
  - split; discriminate.
  - destruct s; split; discriminate.
  - split; reflexivity.
  - destruct s; cbn; rewrite Z.compare_refl, Pos.compare_cont_refl;
      split; discriminate.
Qed.

Lemma zero_is_zero_or_nan (x : float) :
  (x =? 0)%float = true → Numbers.zero_or_nan x = true.
Proof. intros [s Hs]%eqb_zero. unfold Numbers.zero_or_nan. now rewrite Hs. Qed.

Lemma mul_zero_or_nan (x y : float) :
  Numbers.zero_or_nan x = true → Numbers.zero_or_nan (x * y) = true.
Proof.
  unfold Numbers.zero_or_nan. rewrite FloatAxioms.mul_spec.
  destruct (Prim2SF x); try discriminate; intros _;
    destruct (Prim2SF y); reflexivity.
Qed.

Lemma div_zero_or_nan (x y : float) :
  Numbers.zero_or_nan x = true → Numbers.zero_or_nan (x / y) = true.
Proof.
  unfold Numbers.zero_or_nan. rewrite FloatAxioms.div_spec.
  destruct (Prim2SF x); try discriminate; intros _;
    destruct (Prim2SF y); reflexivity.
Qed.

Lemma guarded_zero (x : float) :
  Numbers.zero_or_nan x = true →
  ((if is_nan x then 0 else x) =? 0)%float = true.
Proof.
  unfold Numbers.zero_or_nan. intros Hx.
  destruct (is_nan x) eqn:Enan; [reflexivity |].
  apply eqb_zero. destruct (Prim2SF x) as [s | | |] eqn:E; try discriminate.
  - eauto.
  - apply is_nan_spec in E. congruence.
Qed.

Section WithHost.
Context `{Host}.

(** When the down payment equals the loan amount, so that the principal is
    zero, the estimate at a monthly rate other than zero is zero, whatever
    [Math.pow] returns: where the quotient is 0/0 or has an infinite
    factor, the test for NaN puts 0 in its place.  At a monthly rate of
    zero the estimate is zero or NaN. *)
Theorem no_principal_no_payment (la dp ir tm : jsval) :
  (principal la dp =? 0)%float = true →
  ((monthlyRate ir =? 0)%float = false →
   (calculatePayment la dp ir tm =? 0)%float = true)
  ∧ Numbers.zero_or_nan (calculatePayment la dp ir tm) = true.
Proof.
  intros Hzero%zero_is_zero_or_nan.
  assert (Hquotient : Numbers.zero_or_nan (payment (principal la dp) (monthlyRate ir)
                                     tm) = true).
  { unfold payment. now apply div_zero_or_nan, mul_zero_or_nan,
      mul_zero_or_nan. }
  unfold calculatePayment. cbv zeta. split.
  - intros ->. now apply guarded_zero.
  - destruct (monthlyRate ir =? 0)%float; [now apply div_zero_or_nan |].
    destruct (is_nan _); [reflexivity | exact Hquotient].
Qed.

End WithHost.
End EstimateFacts.

(** ** The query cache *)
Module CacheFacts.
Import Pages.

(** However a mutation of a page ends, the cached lists under the keys of
    the other pages stay as they are, fresh or not. *)
Theorem settle_leaves_other_queries
    (p : Page) (m : Mutation) (o : Outcome) (w : World) (k : string) :
  k ≠ queryKey p → cache (settle p m o w) !! k = cache w !! k.
Proof.
  intros Hk. destruct o; [| reflexivity].
  cbn [settle]. rewrite PagesFacts.onSuccess_cache.
  cbn [invalidateQueries cache]. apply lookup_alter_ne. congruence.
Qed.

End CacheFacts.

(** ** The theorems above at sample inputs *)
Module Instances.
Import DataTable Ordering.

(** The sample rows sorted by name, descending: the three names in order,
    then the two records without one. *)
Lemma sortedData_in_order_witness :
  let h := Reference.host EarlierFirst in
  StronglySorted (λ a b, @in_order h (by_name desc) a b = true)
    (@sortedData h sample_rows (Some (by_name desc))).
Proof.
  apply (@TableFacts.sortedData_in_order (Reference.host EarlierFirst)).
  left. repeat constructor.
Defined.

(** The sample rows sorted by amount, ascending; the record whose amount is
    null comes last. *)
Lemma sortedData_in_order_numbers :
  let h := Reference.host LaterFirst in
  StronglySorted (λ a b, @in_order h (by_amount asc) a b = true)
    (@sortedData h sample_rows (Some (by_amount asc)))
  ∧ ids (@sortedData h sample_rows (Some (by_amount asc)))
    = [JStr "r2"; JStr "r4"; JStr "r5"; JStr "r1"; JStr "r3"].
Proof.
  split.
  - apply (@TableFacts.sortedData_in_order (Reference.host LaterFirst)).
    right. repeat constructor.
  - vm_compute. reflexivity.
Qed.

(** Twenty-five records in pages of ten. *)
Lemma pages_cover_sorted_witness :
  ∃ n, totalPages (Z.of_nat (length (numbered 25))) 10 = Pages n
       ∧ 0 ≤ n
       ∧ concat ((λ k : nat, paginatedData (numbered 25) (Z.of_nat k) 10)
                   <$> seq 1 (Z.to_nat n))
         = numbered 25.
Proof. apply TableFacts.pages_cover_sorted. lia. Defined.

(** The third page of twenty-five records: "Showing 21 to 25 of 25". *)
Lemma footer_counts_page_witness :
  let h := Reference.host LaterFirst in
  let f := {| showing_from := 21; showing_to := 25; showing_of := 25;
              shown_page := 3; shown_pages := Pages 3 |} in
  Z.of_nat (length (@page_of h (sample_props (numbered 25)) (on_page 3)))
  = Z.max 0 (showing_to f - showing_from f + 1)
  ∧ showing_of f
    = Z.of_nat (length (@sorted_of h (sample_props (numbered 25)) (on_page 3)))
  ∧ showing_to f ≤ showing_of f.
Proof.
  apply (@TableFacts.footer_counts_page (Reference.host LaterFirst));
    [cbn; lia | cbn; lia | reflexivity].
Defined.

(** Four clicks on the next button over three pages, a header click and a
    step back and forth. *)
Lemma buttons_stay_within_pages_witness :
  let h := Reference.host LaterFirst in
  let p := sample_props (numbered 25) in
  let st := @after_events h p
              [NextPage; NextPage; NextPage; NextPage;
               HeaderClick (plain "id" "Id" true); PreviousPage; NextPage] in
  (currentPage st - 1) * pageSize_of p
  < Z.max 1 (Z.of_nat (length (@sorted_of h p st)))
  ∧ (data p ≠ [] → ∃ i rest, @page_of h p st = i :: rest).
Proof.
  apply (@TableFacts.buttons_stay_within_pages (Reference.host LaterFirst));
    [cbn; lia | repeat constructor].
Defined.

(** "Bos" keeps no more than "bo" does. *)
Lemma longer_search_narrows_witness :
  let h := Reference.host LaterFirst in
  @filteredData h sample_rows [plain "city" "City" true] "Bos"
  `sublist_of` @filteredData h sample_rows [plain "city" "City" true] "bo".
Proof.
  apply (@TableFacts.longer_search_narrows (Reference.host LaterFirst));
    [discriminate | reflexivity].
Defined.

(** Two records without a name, sorted by name on a host that hands the
    earlier record first. *)
Lemma sort_by_absent_key_witness :
  let h := Reference.host EarlierFirst in
  @sortedData h [r2; r4] (Some (by_name asc)) = rev [r2; r4].
Proof.
  apply (@TableFacts.sort_by_absent_key (Reference.host EarlierFirst)).
  repeat constructor.
Defined.

(** The second page of twenty-five records with distinct ids. *)
Lemma one_menu_at_most_witness :
  let h := Reference.host LaterFirst in
  let p := sample_props (numbered 25) in
  (length (@RowMenu.open_menus h p (on_page 2)) ≤ 1)%nat
  ∧ ∀ i, hasActions p = true → i ∈ @page_of h p (on_page 2) →
      @RowMenu.open_menus h p
        (@handle h p (on_page 2) (RowMenu (keyExtractor p i)))
      = if RowMenu.menu_open p (on_page 2) i then [] else [i].
Proof.
  apply (@RowMenuFacts.one_menu_at_most (Reference.host LaterFirst)).
  apply (bool_decide_unpack _). vm_compute. exact I.
Defined.

(** Two steps forward to the third page of twenty-five records, then a
    search text that one record matches: the record is not shown and no
    button leads back. *)
Lemma short_list_on_later_page_witness :
  let h := Reference.host LaterFirst in
  let p := sample_props (numbered 25) in
  let st := @after_events h p [NextPage; NextPage; Search "25"] in
  length (@sorted_of h p st) = 1%nat
  ∧ @page_of h p st = []
  ∧ @footer_of h p st = None
  ∧ @handle h p st PreviousPage = st.
Proof.
  split; [reflexivity |].
  destruct (@TableFacts.short_list_on_later_page (Reference.host LaterFirst)
              (sample_props (numbered 25))
              (@after_events (Reference.host LaterFirst)
                 (sample_props (numbered 25))
                 [NextPage; NextPage; Search "25"]))
    as (Hpage & Hfooter & Hprevious & _);
    [cbn; lia | vm_compute; discriminate | vm_compute; discriminate |].
  auto.
Defined.

(** A record without a name: the cell shows a dash that the search does
    not find. *)
Lemma plain_cell_is_searched_witness :
  let h := Reference.host LaterFirst in
  @cell h (plain "name" "Name" true) r2 = "-"
  ∧ @column_matches h "-" r2 (plain "name" "Name" true) = false.
Proof.
  apply (@TableFacts.plain_cell_is_searched (Reference.host LaterFirst) "-" r2
           (plain "name" "Name" true)); reflexivity.
Defined.

(** A search for a first name among the sample customers. *)
Lemma search_skips_names_witness :
  let h := Reference.host LaterFirst in
  @filteredData h (Customers.to_item <$> Customers.sample_customers)
    (Customers.columns (λ _, "") (λ _, "") (λ _, "")) "ada"
  = Customers.to_item
      <$> List.filter (@Customers.found h "ada") Customers.sample_customers.
Proof.
  apply (@CustomersFacts.search_skips_names (Reference.host LaterFirst)).
  discriminate.
Defined.

(** "ada" finds nobody although a customer is called Ada; "1906" finds
    the customer born that year. *)
Lemma search_skips_names_example :
  let h := Reference.host LaterFirst in
  List.filter (@Customers.found h "ada") Customers.sample_customers = []
  ∧ Dashboard.customer_id
      <$> List.filter (@Customers.found h "1906") Customers.sample_customers
    = ["c-2"].
Proof. split; vm_compute; reflexivity. Qed.

(** The edit form of the sample property, submitted with a new address. *)
Lemma update_addresses_edited_record_witness :
  let h := Reference.host LaterFirst in
  ∃ sent,
    @Controller.onSubmit_edit h ∅ Pages.PropertiesPage
      {[ "address" := JStr "2 Main St" ]} Controller.editing_world
    = Some {| Api.method := Api.PUT;
              Api.url := @Api.item_url h ∅ Api.propertyService
                           (DataTable.get Pages.sample_property "id");
              Api.body := Some sent |}
    ∧ (∀ k v, ({[ "address" := JStr "2 Main St" ]} : Pages.entity) !! k
              = Some v → sent !! k = Some v)
    ∧ (({[ "address" := JStr "2 Main St" ]} : Pages.entity) !! "id" = None →
       sent !! "id" = Some (DataTable.get Pages.sample_property "id"))
    ∧ (∀ k, k ≠ "id" →
       sent !! k = ({[ "address" := JStr "2 Main St" ]} : Pages.entity) !! k).
Proof.
  apply (@ControllerFacts.update_addresses_edited_record
           (Reference.host LaterFirst)).
  reflexivity.
Defined.

(** Without the environment variable the request goes to a relative
    address. *)
Lemma update_request_example :
  let h := Reference.host LaterFirst in
  Api.url <$> @Controller.onSubmit_edit h ∅ Pages.PropertiesPage
                {[ "address" := JStr "2 Main St" ]} Controller.editing_world
  = Some "undefined/api/properties/p-1".
Proof. vm_compute. reflexivity. Qed.

(** A loan paid down in full at 6.5 percent over 30 years. *)
Lemma no_principal_no_payment_witness :
  let h := Reference.host LaterFirst in
  (@LoanForm.calculatePayment h (JNum 250000) (JNum 250000) (JNum 6.5)
     (JNum 360) =? 0)%float = true.
Proof.
  apply (@EstimateFacts.no_principal_no_payment (Reference.host LaterFirst));
    reflexivity.
Defined.

(** A property deleted: the cached customers are as before. *)
Lemma settle_leaves_other_queries_witness :
  Pages.cache (Pages.settle Pages.PropertiesPage Pages.deleteMutation
                 Pages.Fulfilled Controller.editing_world) !! "customers"
  = Pages.cache Controller.editing_world !! "customers".
Proof. apply CacheFacts.settle_leaves_other_queries. discriminate. Defined.

End Instances.
